(** * gaia-filter: MongoDB style array filtering

    A shallow embedding of [lib/filter.js]: the comparator table, the two
    compile functions [parseQuery] and [parseFilter], the two evaluation
    functions [testFilter] and [_testFilter], and the four methods of a
    filter ([test], [subset], [pass], [index]).

    JavaScript is dynamically typed, so the embedding starts with the
    values the filter can be handed and the handful of language operations
    the source applies to them ([typeof], truthiness, [===], [==], the
    relational operators, [%], [.length], indexing, [indexOf], [for-in]).
    A call either returns, throws, or leaves the fragment of JavaScript
    that is modelled here; the three cases are the type [outcome]. *)

From Stdlib Require Import ZArith List String Ascii Bool Arith Lia Sorted.
From Stdlib Require Import DecimalString.
Import ListNotations.

Local Open Scope string_scope.
Local Open Scope list_scope.

(** ** Outcomes *)

Inductive exn : Type :=
| TypeError.

(** [Ret a]: the call returns [a].  [Throw e]: it throws.  [Beyond]: the
    call needs a part of JavaScript this development does not model (the
    text of a fractional numeral, the identity of two object references,
    nesting deeper than the recursion bound); nothing is claimed about
    such a call. *)
Inductive outcome (A : Type) : Type :=
| Ret (a : A)
| Throw (e : exn)
| Beyond.

Arguments Ret {A} a.
Arguments Throw {A} e.
Arguments Beyond {A}.

Definition bind {A B : Type} (m : outcome A) (k : A -> outcome B) : outcome B :=
  match m with
  | Ret a => k a
  | Throw e => Throw e
  | Beyond => Beyond
  end.

Declare Scope js_scope.
Delimit Scope js_scope with js.
Notation "x <- m ;; k" := (bind m (fun x => k))
  (at level 61, m at next level, right associativity) : js_scope.
Notation "' p <- m ;; k" := (bind m (fun x => match x with p => k end))
  (at level 61, p pattern, m at next level, right associativity) : js_scope.
Local Open Scope js_scope.

Section Loops.
Context {A S : Type}.
Variable body : S -> A -> outcome S.

(** A [for] loop over the elements [xs], threading the loop's variables. *)
Fixpoint foldM (xs : list A) (s : S) : outcome S :=
  match xs with
  | [] => Ret s
  | x :: rest => s' <- body s x ;; foldM rest s'
  end.
End Loops.

Section Maps.
Context {A B : Type}.
Variable f : A -> outcome B.

(** A loop that pushes [f x] for every element, in order. *)
Fixpoint mapM (xs : list A) : outcome (list B) :=
  match xs with
  | [] => Ret []
  | x :: rest => y <- f x ;; ys <- mapM rest ;; Ret (y :: ys)
  end.
End Maps.

(** ** Values *)

(** Numbers are the integral doubles and NaN; [-0] and [0] are one value,
    which none of the operations below can tell apart. *)
Inductive num : Type :=
| NaN
| Int (z : Z).

(** Data as JSON has it, with [undefined].  An object lists its own
    enumerable properties in enumeration order, with distinct names
    ([object_keys] below says which lists of names are the keys of an
    object); its prototype is [Object.prototype].  A string is its
    sequence of code units. *)
#[warnings="-register-all"]
Inductive value : Type :=
| VUndef
| VNull
| VBool (b : bool)
| VNum (n : num)
| VStr (s : string)
| VArr (elems : list value)
| VObj (props : list (string * value)).

Module JS.

Definition typeof (v : value) : string :=
  match v with
  | VUndef => "undefined"
  | VNull => "object"
  | VBool _ => "boolean"
  | VNum _ => "number"
  | VStr _ => "string"
  | VArr _ => "object"
  | VObj _ => "object"
  end.

(** ToBoolean. *)
Definition truthy (v : value) : bool :=
  match v with
  | VUndef => false
  | VNull => false
  | VBool b => b
  | VNum NaN => false
  | VNum (Int z) => negb (Z.eqb z 0)
  | VStr s => negb (String.eqb s "")
  | VArr _ => true
  | VObj _ => true
  end.

Fixpoint own (k : string) (props : list (string * value)) : option value :=
  match props with
  | [] => None
  | (k', v) :: rest => if String.eqb k k' then Some v else own k rest
  end.

Definition dec (i : nat) : string := NilZero.string_of_uint (Nat.to_uint i).

Fixpoint chars (s : string) : list value :=
  match s with
  | EmptyString => []
  | String c rest => VStr (String c EmptyString) :: chars rest
  end.

Fixpoint indexed (i : nat) (xs : list value) : list (string * value) :=
  match xs with
  | [] => []
  | x :: rest => (dec i, x) :: indexed (S i) rest
  end.

(** [for (var k in v)] with [v[k]]: the keys a [for-in] visits, each with
    the value read under it. *)
Definition for_in (v : value) : list (string * value) :=
  match v with
  | VObj props => props
  | VArr elems => indexed 0 elems
  | VStr s => indexed 0 (chars s)
  | _ => []
  end.

(** [v.length]. *)
Definition length (v : value) : outcome value :=
  match v with
  | VUndef | VNull => Throw TypeError
  | VBool _ | VNum _ => Ret VUndef
  | VStr s => Ret (VNum (Int (Z.of_nat (String.length s))))
  | VArr elems => Ret (VNum (Int (Z.of_nat (List.length elems))))
  | VObj props =>
      Ret (match own "length" props with Some l => l | None => VUndef end)
  end.

(** [v[i]] for an index [i]. *)
Definition at_index (v : value) (i : nat) : outcome value :=
  match v with
  | VUndef | VNull => Throw TypeError
  | VBool _ | VNum _ => Ret VUndef
  | VStr s => Ret (nth i (chars s) VUndef)
  | VArr elems => Ret (nth i elems VUndef)
  | VObj props =>
      Ret (match own (dec i) props with Some x => x | None => VUndef end)
  end.

(** Number to string, for the integers up to [2^53], which print as
    their decimal digits. *)
Definition num_to_string (n : num) : outcome string :=
  match n with
  | NaN => Ret "NaN"
  | Int z =>
      if Z.leb (Z.abs z) (2 ^ 53)
      then Ret (NilZero.string_of_int (Z.to_int z))
      else Beyond
  end.

(** ToString.  An array joins its elements with commas, [undefined] and
    [null] elements giving the empty string.  A plain object inherits
    [toString] and gives ["[object Object]"], unless an own property
    shadows it: data holds no function, so the shadowing value is not
    callable, [valueOf] returns the object itself, and the conversion
    throws. *)
Fixpoint to_string (v : value) : outcome string :=
  match v with
  | VUndef => Ret "undefined"
  | VNull => Ret "null"
  | VBool true => Ret "true"
  | VBool false => Ret "false"
  | VNum n => num_to_string n
  | VStr s => Ret s
  | VArr elems =>
      (fix join (xs : list value) : outcome string :=
         match xs with
         | [] => Ret ""
         | x :: rest =>
             s <- match x with
                  | VUndef | VNull => Ret ""
                  | _ => to_string x
                  end ;;
             match rest with
             | [] => Ret s
             | _ => r <- join rest ;; Ret (String.append s (String.append "," r))
             end
         end) elems
  | VObj props =>
      match own "toString" props with
      | Some _ => Throw TypeError
      | None => Ret "[object Object]"
      end
  end.

(** ToPrimitive; for arrays and plain objects both hints end in
    [toString]. *)
Definition to_primitive (v : value) : outcome value :=
  match v with
  | VArr _ | VObj _ => s <- to_string v ;; Ret (VStr s)
  | _ => Ret v
  end.

Definition in_string (c : ascii) (s : string) : bool :=
  match String.index 0 (String c EmptyString) s with
  | Some _ => true
  | None => false
  end.

(** A printable character that occurs in no numeric literal. *)
Definition foreign (c : ascii) : bool :=
  let n := nat_of_ascii c in
  Nat.leb 33 n && Nat.leb n 126
  && negb (in_string c "0123456789+-.abcdefABCDEFxXoOInity").

Fixpoint any_foreign (s : string) : bool :=
  match s with
  | EmptyString => false
  | String c rest => foreign c || any_foreign rest
  end.

(** StringToNumber, where the answer is an integer or NaN for certain:
    the empty string is 0, a run of at most fifteen digits is its
    value, a string with a character no numeral contains is NaN. *)
Definition string_to_number (s : string) : outcome num :=
  match NilEmpty.uint_of_string s with
  | Some d =>
      if Nat.leb (String.length s) 15
      then Ret (Int (Z.of_N (N.of_uint d)))
      else Beyond
  | None => if any_foreign s then Ret NaN else Beyond
  end.

(** ToNumber of a primitive. *)
Definition prim_to_number (p : value) : outcome num :=
  match p with
  | VUndef => Ret NaN
  | VNull => Ret (Int 0)
  | VBool true => Ret (Int 1)
  | VBool false => Ret (Int 0)
  | VNum n => Ret n
  | VStr s => string_to_number s
  | VArr _ | VObj _ => Beyond
  end.

Definition to_number (v : value) : outcome num :=
  p <- to_primitive v ;; prim_to_number p.

(** The comparison behind [<], [>], [<=] and [>=]: both operands are
    made primitive, left first; two strings compare by code units, any
    other pair as numbers.  [None] is the undefined result of a
    comparison with NaN, under which all four operators are false. *)
Definition relational (a b : value) : outcome (option comparison) :=
  pa <- to_primitive a ;;
  pb <- to_primitive b ;;
  match pa, pb with
  | VStr x, VStr y => Ret (Some (String.compare x y))
  | _, _ =>
      match prim_to_number pa, prim_to_number pb with
      | Ret NaN, _ => Ret None
      | _, Ret NaN => Ret None
      | Ret (Int x), Ret (Int y) => Ret (Some (Z.compare x y))
      | _, _ => Beyond
      end
  end.

Definition num_eqb (x y : num) : bool :=
  match x, y with
  | Int a, Int b => Z.eqb a b
  | _, _ => false
  end.

(** [a === b].  Two objects are equal when they are one reference,
    which their contents do not decide. *)
Definition strict_eq (a b : value) : outcome bool :=
  match a, b with
  | VUndef, VUndef => Ret true
  | VNull, VNull => Ret true
  | VBool x, VBool y => Ret (Bool.eqb x y)
  | VNum x, VNum y => Ret (num_eqb x y)
  | VStr x, VStr y => Ret (String.eqb x y)
  | (VArr _ | VObj _), (VArr _ | VObj _) => Beyond
  | _, _ => Ret false
  end.

(** [==] on two primitives, neither [undefined] nor [null]: equal types
    compare strictly, different types as numbers. *)
Definition loose_prim (p q : value) : outcome bool :=
  match p, q with
  | VBool x, VBool y => Ret (Bool.eqb x y)
  | VNum x, VNum y => Ret (num_eqb x y)
  | VStr x, VStr y => Ret (String.eqb x y)
  | _, _ =>
      match prim_to_number p, prim_to_number q with
      | Ret NaN, _ => Ret false
      | _, Ret NaN => Ret false
      | Ret (Int x), Ret (Int y) => Ret (Z.eqb x y)
      | _, _ => Beyond
      end
  end.

(** [a == b]. *)
Definition loose_eq (a b : value) : outcome bool :=
  match a, b with
  | (VUndef | VNull), (VUndef | VNull) => Ret true
  | (VUndef | VNull), _ => Ret false
  | _, (VUndef | VNull) => Ret false
  | (VArr _ | VObj _), (VArr _ | VObj _) => Beyond
  | _, _ =>
      p <- to_primitive a ;;
      q <- to_primitive b ;;
      loose_prim p q
  end.

(** [a % b]: the remainder takes the sign of the dividend. *)
Definition rem (a b : value) : outcome num :=
  x <- to_number a ;;
  y <- to_number b ;;
  Ret (match x, y with
       | Int p, Int q => if Z.eqb q 0 then NaN else Int (Z.rem p q)
       | _, _ => NaN
       end).

(** The values [x[0]], ..., [x[n-1]] that a loop
    [for (i = 0; i < x.length; i++)] reads. *)
Definition elements (x : value) : outcome (list value) :=
  len <- length x ;;
  n <- to_number len ;;
  match n with
  | NaN => Ret []
  | Int z => mapM (at_index x) (seq 0 (Z.to_nat z))
  end.

Fixpoint array_indexOf (xs : list value) (x : value) (i : Z) : outcome Z :=
  match xs with
  | [] => Ret (-1)%Z
  | y :: rest =>
      same <- strict_eq y x ;;
      if same then Ret i else array_indexOf rest x (i + 1)%Z
  end.

(** [recv.indexOf(x)]: arrays search by [===], strings search for the
    text of [x]; no other value has the method. *)
Definition indexOf (recv x : value) : outcome Z :=
  match recv with
  | VArr elems => array_indexOf elems x 0%Z
  | VStr s =>
      needle <- to_string x ;;
      Ret (match String.index 0 needle s with
           | Some i => Z.of_nat i
           | None => (-1)%Z
           end)
  | _ => Throw TypeError
  end.

(** [~i] as a condition. *)
Definition tilde (i : Z) : bool := negb (Z.eqb (Z.lnot i) 0).

End JS.

(** ** The property lists that are objects *)

(** The number a key stands for, when the key is the decimal numeral of
    one: ["0"], ["12"], but not ["012"] nor the empty string. *)
Definition index_key (k : string) : option N :=
  match NilEmpty.uint_of_string k with
  | Some d =>
      let n := N.of_uint d in
      if String.eqb (NilZero.string_of_uint (N.to_uint n)) k then Some n else None
  | None => None
  end.

Fixpoint distinct (ks : list string) : bool :=
  match ks with
  | [] => true
  | k :: rest => negb (existsb (String.eqb k) rest) && distinct rest
  end.

(** The order in which [for-in] visits the keys of an object: the
    numerals first, ascending, then the other keys, as they were added;
    [last] is the numeral before, [other] tells that a key that is no
    numeral has been seen.  A numeral too large for an array index is
    visited among the other keys; a list that has it after the smaller
    numerals and before the other keys is in the order of the visit all
    the same. *)
Fixpoint for_in_order (last : option N) (other : bool) (ks : list string) : bool :=
  match ks with
  | [] => true
  | k :: rest =>
      match index_key k with
      | Some n =>
          negb other
          && match last with Some m => N.ltb m n | None => true end
          && for_in_order (Some n) false rest
      | None => for_in_order last true rest
      end
  end.

(** The lists of names that are the keys of an object, as [for-in]
    enumerates them. *)
Definition object_keys (ks : list string) : bool :=
  distinct ks && for_in_order None false ks.

(** The values all of whose objects are JavaScript objects. *)
Fixpoint well_formed (v : value) : bool :=
  match v with
  | VArr elems => forallb well_formed elems
  | VObj props =>
      object_keys (map fst props)
      && forallb (fun kv => well_formed (snd kv)) props
  | _ => true
  end.

(** ** The comparator table *)

(** [$gt (a, b)]: [a > b]. *)
Definition c_gt (a b : value) : outcome bool :=
  r <- JS.relational a b ;;
  Ret (match r with Some Gt => true | _ => false end).

(** [$gte (a, b)]: [a >= b]. *)
Definition c_gte (a b : value) : outcome bool :=
  r <- JS.relational a b ;;
  Ret (match r with Some Gt | Some Eq => true | _ => false end).

(** [$lt (a, b)]: [a < b]. *)
Definition c_lt (a b : value) : outcome bool :=
  r <- JS.relational a b ;;
  Ret (match r with Some Lt => true | _ => false end).

(** [$lte (a, b)]: [a <= b]. *)
Definition c_lte (a b : value) : outcome bool :=
  r <- JS.relational a b ;;
  Ret (match r with Some Lt | Some Eq => true | _ => false end).

(** [$all (a, b)]: for each [b[i]], [if (!~a.indexOf(b[i])) return false];
    then [true]. *)
Definition c_all (a b : value) : outcome bool :=
  bs <- JS.elements b ;;
  (fix loop (xs : list value) : outcome bool :=
     match xs with
     | [] => Ret true
     | x :: rest =>
         i <- JS.indexOf a x ;;
         if negb (JS.tilde i) then Ret false else loop rest
     end) bs.

(** [$exists (a, b)]: [!!a == b]. *)
Definition c_exists (a b : value) : outcome bool :=
  JS.loose_eq (VBool (JS.truthy a)) b.

(** [$mod (a, b)]: [a % b[0] == b[1]]. *)
Definition c_mod (a b : value) : outcome bool :=
  b0 <- JS.at_index b 0 ;;
  r <- JS.rem a b0 ;;
  b1 <- JS.at_index b 1 ;;
  JS.loose_eq (VNum r) b1.

(** [$eq (a, b)]: [a === b]. *)
Definition c_eq (a b : value) : outcome bool := JS.strict_eq a b.

(** [$ne (a, b)]: [a !== b]. *)
Definition c_ne (a b : value) : outcome bool :=
  r <- JS.strict_eq a b ;; Ret (negb r).

(** [$in (a, b)]: [~b.indexOf(a) ? true : false]. *)
Definition c_in (a b : value) : outcome bool :=
  i <- JS.indexOf b a ;; Ret (if JS.tilde i then true else false).

(** [$nin (a, b)]: [~b.indexOf(a) ? false : true]. *)
Definition c_nin (a b : value) : outcome bool :=
  i <- JS.indexOf b a ;; Ret (if JS.tilde i then false else true).

(** [$size (a, b)]: [(a && a.length && b) ? a.length == b : false]. *)
Definition c_size (a b : value) : outcome bool :=
  if JS.truthy a then
    len <- JS.length a ;;
    if JS.truthy len then
      if JS.truthy b then
        len' <- JS.length a ;; JS.loose_eq len' b
      else Ret false
    else Ret false
  else Ret false.

(** [$or (a)]: [res = false]; for each [a[i]], [if (fn) res = true]. *)
Definition c_or (a : value) : outcome bool :=
  xs <- JS.elements a ;;
  Ret (fold_left (fun res fn => if JS.truthy fn then true else res) xs false).

(** [$nor (a)]: [res = true]; for each [a[i]], [if (fn) res = false]. *)
Definition c_nor (a : value) : outcome bool :=
  xs <- JS.elements a ;;
  Ret (fold_left (fun res fn => if JS.truthy fn then false else res) xs true).

(** [$and (a)]: [res = true]; for each [a[i]], [if (!fn) res = false]. *)
Definition c_and (a : value) : outcome bool :=
  xs <- JS.elements a ;;
  Ret (fold_left (fun res fn => if negb (JS.truthy fn) then false else res) xs true).

(** The functions of the table, as values stored in a compiled filter;
    [fn_inherited name] is the property [name] that the table, an object
    literal, inherits from [Object.prototype]. *)
Inductive fnref : Type :=
| fn_gt | fn_gte | fn_lt | fn_lte | fn_all | fn_exists | fn_mod | fn_eq
| fn_ne | fn_in | fn_nin | fn_size | fn_or | fn_nor | fn_and
| fn_inherited (name : string).

(** [Filter.comparators]: its own properties. *)
Definition comparators (name : string) : option fnref :=
  if String.eqb name "$gt" then Some fn_gt
  else if String.eqb name "$gte" then Some fn_gte
  else if String.eqb name "$lt" then Some fn_lt
  else if String.eqb name "$lte" then Some fn_lte
  else if String.eqb name "$all" then Some fn_all
  else if String.eqb name "$exists" then Some fn_exists
  else if String.eqb name "$mod" then Some fn_mod
  else if String.eqb name "$eq" then Some fn_eq
  else if String.eqb name "$ne" then Some fn_ne
  else if String.eqb name "$in" then Some fn_in
  else if String.eqb name "$nin" then Some fn_nin
  else if String.eqb name "$size" then Some fn_size
  else if String.eqb name "$or" then Some fn_or
  else if String.eqb name "$nor" then Some fn_nor
  else if String.eqb name "$and" then Some fn_and
  else None.

(** [TRAVERSABLE]: its own properties, all [true]. *)
Definition TRAVERSABLE (name : string) : bool :=
  String.eqb name "$and" || String.eqb name "$or" || String.eqb name "$nor".

(** The names both tables inherit from [Object.prototype]. *)
Definition proto_key (name : string) : bool :=
  existsb (String.eqb name)
    ["constructor"; "toString"; "toLocaleString"; "valueOf";
     "hasOwnProperty"; "isPrototypeOf"; "propertyIsEnumerable";
     "__proto__"; "__defineGetter__"; "__defineSetter__";
     "__lookupGetter__"; "__lookupSetter__"].

(** [Filter.comparators[name]]: an own property, or else an inherited
    one, or else [undefined]. *)
Definition resolve (name : string) : option fnref :=
  match comparators name with
  | Some f => Some f
  | None => if proto_key name then Some (fn_inherited name) else None
  end.

(** [TRAVERSABLE[name]] as a condition: every inherited property is a
    function or an object, hence truthy. *)
Definition traversable (name : string) : bool :=
  TRAVERSABLE name || proto_key name.

(** [fn.length] of an inherited property: [Object], [hasOwnProperty],
    [isPrototypeOf], [propertyIsEnumerable], [__lookupGetter__] and
    [__lookupSetter__] declare one parameter, [__defineGetter__] and
    [__defineSetter__] two, [toString], [toLocaleString] and [valueOf]
    none; [__proto__] is the prototype object, whose [length] is
    undefined, which is neither [=== 1] nor [> 1], as 0 is. *)
Definition inherited_arity (name : string) : nat :=
  if existsb (String.eqb name)
       ["constructor"; "hasOwnProperty"; "isPrototypeOf"; "propertyIsEnumerable";
        "__lookupGetter__"; "__lookupSetter__"]
  then 1
  else if existsb (String.eqb name) ["__defineGetter__"; "__defineSetter__"]
  then 2
  else 0.

(** [fn.length]: the number of declared parameters. *)
Definition arity (f : fnref) : nat :=
  match f with
  | fn_or | fn_nor | fn_and => 1
  | fn_inherited name => inherited_arity name
  | _ => 2
  end.

(** The own properties of a compiled node [{ fn, params, traverse }],
    which is [this] when [_testFilter] calls [test.fn(...)]. *)
Definition node_keys : list string := ["fn"; "params"; "traverse"].

(** An inherited property called as [test.fn(a, b)], by the truthiness of
    what it returns.  [Object(a)] is an object.  [hasOwnProperty] and
    [propertyIsEnumerable] look the key [a] up among the node's own
    properties.  The node is the prototype of nothing.  [__lookupGetter__]
    and [__lookupSetter__] find an accessor only under [__proto__], on
    [Object.prototype].  [__defineGetter__] and [__defineSetter__] refuse
    [b], which is no function.  [__proto__] is no function.  [toString],
    [toLocaleString] and [valueOf] return a string or the node. *)
Definition call_inherited (name : string) (a b : value) : outcome bool :=
  if String.eqb name "constructor" then Ret true
  else if String.eqb name "hasOwnProperty" || String.eqb name "propertyIsEnumerable"
  then k <- JS.to_string a ;; Ret (existsb (String.eqb k) node_keys)
  else if String.eqb name "isPrototypeOf" then Ret false
  else if String.eqb name "__lookupGetter__" || String.eqb name "__lookupSetter__"
  then k <- JS.to_string a ;; Ret (String.eqb k "__proto__")
  else if String.eqb name "__defineGetter__" || String.eqb name "__defineSetter__"
  then Throw TypeError
  else if String.eqb name "__proto__" then Throw TypeError
  else Ret true.

(** [fn(args...)]: a missing argument is [undefined], an extra one is
    ignored. *)
Definition call (f : fnref) (args : list value) : outcome bool :=
  let a := nth 0 args VUndef in
  let b := nth 1 args VUndef in
  match f with
  | fn_gt => c_gt a b
  | fn_gte => c_gte a b
  | fn_lt => c_lt a b
  | fn_lte => c_lte a b
  | fn_all => c_all a b
  | fn_exists => c_exists a b
  | fn_mod => c_mod a b
  | fn_eq => c_eq a b
  | fn_ne => c_ne a b
  | fn_in => c_in a b
  | fn_nin => c_nin a b
  | fn_size => c_size a b
  | fn_or => c_or a
  | fn_nor => c_nor a
  | fn_and => c_and a
  | fn_inherited name => call_inherited name a b
  end.

(** ** The compiled filter *)

(** [parseQuery] returns an array of [{ test, path }] objects, [path]
    being left undefined for an operator key; [parseFilter] returns an
    array of [{ fn, params, traverse }] objects, where [params] is either
    the query's own value or the array [st] of nested stacks.  An element
    of [st] is whatever the variable [nq] held when it was pushed,
    [undefined] included. *)
#[warnings="-register-all"]
Inductive qry : Type :=
| Qry (test : list tst) (path : option string)
with tst : Type :=
| Tst (fn : option fnref) (params : params) (traverse : bool)
with params : Type :=
| Raw (v : value)
| Nested (st : list (option (list qry))).

Definition qry_test (q : qry) : list tst := let (t, _) := q in t.
Definition qry_path (q : qry) : option string := let (_, p) := q in p.
Definition tst_fn (t : tst) : option fnref := let (f, _, _) := t in f.
Definition tst_params (t : tst) : params := let (_, p, _) := t in p.
Definition tst_traverse (t : tst) : bool := let (_, _, b) := t in b.

(** ** Compiling: [parseQuery] and [parseFilter] *)

(** ['string' == typeof p || 'number' == typeof p || 'boolean' == typeof p]. *)
Definition literal (p : value) : bool :=
  String.eqb "string" (JS.typeof p)
  || String.eqb "number" (JS.typeof p)
  || String.eqb "boolean" (JS.typeof p).

(** [cmd[0] == '$']. *)
Definition dollar (cmd : string) : bool :=
  match cmd with
  | String c _ => Ascii.eqb c "$"
  | EmptyString => false
  end.

(** The body of the loop over [params] in [parseFilter].  The variables
    are [traverse], [nq] and [st]; [nq] is declared with [var] and no
    initialiser, so it keeps its value from one element, and from one key,
    to the next. *)
Definition parse_element (parseQuery : value -> outcome (list qry))
    (s : bool * option (list qry) * list (option (list qry))) (p : value)
  : outcome (bool * option (list qry) * list (option (list qry))) :=
  let '(traverse, nq, st) := s in
  if literal p then Ret (false, nq, st ++ [nq])
  else
    q <- parseQuery p ;;
    Ret (traverse, Some q, st ++ [Some q]).

(** The body of the loop [for (var test in query)] of [parseFilter]; its
    variables are [stack] and, for the reason above, [nq].  The entry
    pushed is [{ fn: fn, params: traverse ? st : params, traverse }]. *)
Definition parse_test (parseQuery : value -> outcome (list qry))
    (s : list tst * option (list qry)) (kv : string * value)
  : outcome (list tst * option (list qry)) :=
  let '(stack, nq) := s in
  let '(test, params) := kv in
  let fn := resolve test in
  if traversable test then
    ps <- JS.elements params ;;
    r <- foldM (parse_element parseQuery) ps (true, nq, []) ;;
    let '(traverse, nq', st) := r in
    Ret (stack ++ [Tst fn (if traverse then Nested st else Raw params) traverse],
         nq')
  else
    Ret (stack ++ [Tst fn (Raw params) false], nq).

(** The body of the loop [for (var cmd in query)] of [parseQuery]: an
    operator key compiles the whole [query] and leaves [qry.path] unset,
    a literal is compiled as [{ $eq: params }], anything else as it is. *)
Definition parse_clause (parseFilter : value -> outcome (list tst))
    (query : value) (stack : list qry) (kv : string * value)
  : outcome (list qry) :=
  let '(cmd, params) := kv in
  qry <- (if dollar cmd then
            t <- parseFilter query ;; Ret (Qry t None)
          else if literal params then
            t <- parseFilter (VObj [("$eq", params)]) ;; Ret (Qry t (Some cmd))
          else
            t <- parseFilter params ;; Ret (Qry t (Some cmd))) ;;
  Ret (stack ++ [qry]).

(** The two functions call each other; the argument [n] bounds the depth
    of that recursion. *)
Fixpoint parseQuery (n : nat) (query : value) {struct n} : outcome (list qry) :=
  match n with
  | O => Beyond
  | S n' => foldM (parse_clause (parseFilter n') query) (JS.for_in query) []
  end
with parseFilter (n : nat) (query : value) {struct n} : outcome (list tst) :=
  match n with
  | O => Beyond
  | S n' =>
      r <- foldM (parse_test (parseQuery n')) (JS.for_in query) ([], None) ;;
      Ret (fst r)
  end.

(** ** Evaluating: [testFilter] and [_testFilter] *)

Section Evaluate.

(** [properties.get] of the package [tea-properties], which is not part
    of this repository: the value found in an object under a path such
    as ["a.b"] or ["d[0].e"], [undefined] when there is none. *)
Variable properties_get : value -> string -> value.

(** [filter.path ? properties.get(val, filter.path) : val]. *)
Definition element (val : value) (path : option string) : value :=
  match path with
  | Some p => if JS.truthy (VStr p) then properties_get val p else val
  | None => val
  end.

(** The two calls at the end of the loop body of [_testFilter]:
    [if (test.fn.length === 1 && !test.fn(params)) res = false;
     else if (test.fn.length > 1 && !test.fn(val, params)) res = false]. *)
Definition apply_fn (fn : option fnref) (val params : value) (res : bool)
  : outcome bool :=
  match fn with
  | None => Throw TypeError
  | Some f =>
      if Nat.eqb (arity f) 1 then
        r <- call f [params] ;; Ret (if negb r then false else res)
      else if Nat.ltb 1 (arity f) then
        r <- call f [val; params] ;; Ret (if negb r then false else res)
      else Ret res
  end.

(** [testFilter] and [_testFilter] call each other along the nesting of
    the compiled filter.  [test_clause] is one turn of the loop of
    [testFilter], for the clause [filter], with the loop of
    [_testFilter] over [filter.test] and the loop over the nested
    stacks written out inside it; the two source functions follow, and
    [test_clause_eq] ties the knot. *)
Fixpoint test_clause (val : value) (filter : qry) {struct filter} : outcome bool :=
  match filter with
  | Qry test path =>
      let el := element val path in
      foldM (fun res t =>
               match t with
               | Tst fn params traverse =>
                   arg <- match traverse, params with
                          | true, Nested st =>
                              p <- mapM (fun nq =>
                                           match nq with
                                           | Some stack =>
                                               foldM (fun pass f =>
                                                        r <- test_clause el f ;;
                                                        Ret (if negb r then false else pass))
                                                     stack true
                                           | None => Throw TypeError
                                           end) st ;;
                              Ret (VArr (map VBool p))
                          | false, Raw v => Ret v
                          | _, _ => Beyond
                          end ;;
                   apply_fn fn el arg res
               end)
            test true
  end.

(** [testFilter (val, stack)]: [pass = true]; for each [filter] of
    [stack], [res = _testFilter(el, filter.test)] and
    [if (!res) pass = false]; every clause is evaluated. *)
Definition testFilter (val : value) (stack : list qry) : outcome bool :=
  foldM (fun pass filter =>
           res <- test_clause val filter ;;
           Ret (if negb res then false else pass))
        stack true.

(** [testFilter(val, params[ii])]; reading [stack.length] of an
    undefined element throws. *)
Definition test_nested (val : value) (nq : option (list qry)) : outcome bool :=
  match nq with
  | Some stack => testFilter val stack
  | None => Throw TypeError
  end.

(** The argument the comparator is called with: the array [p] of the
    nested results when [test.traverse] is set, [test.params] as it is
    otherwise.  The compiler sets the flag exactly when [params] is the
    array of nested stacks. *)
Definition argument (val : value) (params : params) (traverse : bool)
  : outcome value :=
  match traverse, params with
  | true, Nested st => p <- mapM (test_nested val) st ;; Ret (VArr (map VBool p))
  | false, Raw v => Ret v
  | _, _ => Beyond
  end.

(** [_testFilter (val, stack)]: [res = true]; each test calls its
    comparator and a false answer sets [res = false]. *)
Definition _testFilter (val : value) (stack : list tst) : outcome bool :=
  foldM (fun res t =>
           match t with
           | Tst fn params traverse =>
               arg <- argument val params traverse ;;
               apply_fn fn val arg res
           end)
        stack true.

End Evaluate.

(** ** The filter object and its methods *)

(** The nesting depth of a value; two more than it is recursion enough
    for [parseQuery] (see [parseQuery_fuel]). *)
Fixpoint depth (v : value) : nat :=
  match v with
  | VArr elems => S (list_max (map depth elems))
  | VObj props => S (list_max (map (fun kv => depth (snd kv)) props))
  | _ => O
  end.

Record Filter : Type := mkFilter {
  query : value;
  stack : list qry
}.

(** [Filter (query)], the spec's [compile]: [this.query = query;
    this.stack = parseQuery(query)]. *)
Definition compile (q : value) : outcome Filter :=
  s <- parseQuery (S (S (depth q))) q ;;
  Ret (mkFilter q s).

Section Methods.

Variable properties_get : value -> string -> value.

(** [Filter.prototype.test]. *)
Definition test (f : Filter) (data : value) : outcome bool :=
  testFilter properties_get data (stack f).

(** [Filter.prototype.subset]: [if (testFilter(datum, this.stack))
    res.push(datum)]. *)
Definition subset (f : Filter) (data : value) : outcome (list value) :=
  ds <- JS.elements data ;;
  foldM (fun res datum =>
           r <- testFilter properties_get datum (stack f) ;;
           Ret (if r then res ++ [datum] else res))
        ds [].

(** [Filter.prototype.pass]: [res.push(testFilter(datum, this.stack))]. *)
Definition pass (f : Filter) (data : value) : outcome (list bool) :=
  ds <- JS.elements data ;;
  foldM (fun res datum =>
           r <- testFilter properties_get datum (stack f) ;;
           Ret (res ++ [r]))
        ds [].

(** [Filter.prototype.index]: [if (testFilter(datum, this.stack))
    res.push(di)]; the loop's variables are [res] and [di]. *)
Definition index (f : Filter) (data : value) : outcome (list nat) :=
  ds <- JS.elements data ;;
  r <- foldM (fun '(res, di) datum =>
                r <- testFilter properties_get datum (stack f) ;;
                Ret (if r then res ++ [di] else res, S di))
             ds ([], O) ;;
  Ret (fst r).

End Methods.

(** ** A deep path lookup to run the examples with *)

Module Path.

Inductive part : Type :=
| Key (p : string)
| Idx (i : nat).

Definition digit (c : ascii) : option nat :=
  let n := nat_of_ascii c in
  if Nat.leb 48 n && Nat.leb n 57 then Some (n - 48) else None.

(** Reads [digits]] off the front of [s]. *)
Fixpoint index_part (s : string) (acc : nat) : option (nat * string) :=
  match s with
  | EmptyString => None
  | String c rest =>
      if Ascii.eqb c "]" then Some (acc, rest)
      else match digit c with
           | Some d => index_part rest (10 * acc + d)
           | None => None
           end
  end.

Definition flush (cur : string) (parts : list part) : list part :=
  if String.eqb cur "" then parts else parts ++ [Key cur].

(** Splits a path at its dots and brackets: ["d[0].e"] is
    [[Key "d"; Idx 0; Key "e"]]. *)
Fixpoint parse (n : nat) (s cur : string) (parts : list part) : list part :=
  match n with
  | O => flush cur parts
  | S n' =>
      match s with
      | EmptyString => flush cur parts
      | String c rest =>
          if Ascii.eqb c "." then parse n' rest "" (flush cur parts)
          else if Ascii.eqb c "[" then
            match index_part rest 0 with
            | Some (i, rest') => parse n' rest' "" (flush cur parts ++ [Idx i])
            | None => parse n' rest (String.append cur (String c EmptyString)) parts
            end
          else parse n' rest (String.append cur (String c EmptyString)) parts
      end
  end.

Definition step (v : value) (p : part) : value :=
  match v, p with
  | VObj props, Key k =>
      match JS.own k props with Some x => x | None => VUndef end
  | VObj props, Idx i =>
      match JS.own (JS.dec i) props with Some x => x | None => VUndef end
  | VArr elems, Idx i => nth i elems VUndef
  | _, _ => VUndef
  end.

(** Modelled from the spec: the deep path lookup [deepGet] of the
    evaluator, which the source takes from the package
    [tea-properties]; it "resolves dot-separated and bracket-indexed
    path segments against nested objects/arrays" and "returns an
    absent-value sentinel (not an error) when any intermediate segment
    is missing or the terminal value does not exist". *)
Definition deep_get (obj : value) (path : string) : value :=
  fold_left (fun tmp p => if JS.truthy tmp then step tmp p else VUndef)
            (parse (String.length path) path "" []) obj.

End Path.

(** ** Vocabulary of the statements *)

(** The elements of [xs] whose flag in [bs] is set, in order. *)
Fixpoint keep {X : Type} (xs : list X) (bs : list bool) : list X :=
  match xs, bs with
  | x :: xs', b :: bs' => if b then x :: keep xs' bs' else keep xs' bs'
  | _, _ => []
  end.

(** ** Data of the examples *)

Definition num_ (z : Z) : value := VNum (Int z).

(** [{ $or : [ { 'hello': true }, { 'universe': true } ] }], compiled. *)
Definition or_query : value :=
  VObj [("$or", VArr [VObj [("hello", VBool true)];
                      VObj [("universe", VBool true)]])].

Definition or_filter : Filter :=
  mkFilter or_query
    [Qry [Tst (Some fn_or)
              (Nested [Some [Qry [Tst (Some fn_eq) (Raw (VBool true)) false]
                                 (Some "hello")];
                       Some [Qry [Tst (Some fn_eq) (Raw (VBool true)) false]
                                 (Some "universe")]])
              true]
         None].

Definition or_records : list value :=
  [VObj [("hello", VBool true)];
   VObj [("universe", VBool false)];
   VObj [("hello", VBool false); ("universe", VBool true)];
   VObj [("hello", VBool false); ("universe", VBool false)]].

(** [{ $lt: 10, $gt: 5 }]. *)
Definition range_query : value := VObj [("$lt", num_ 10); ("$gt", num_ 5)].

(** What [parseFilter] pushes for the key [op] with value [params]: the
    comparator found under [op]; [params] untouched when the flag is off
    and nested stacks when it is on; the flag, which is off for every key
    but those [TRAVERSABLE] answers for and, for an array under one of
    those, on exactly when no element is a literal. *)
Definition compiled_node (op : string) (params : value) (t : tst) : Prop :=
  tst_fn t = resolve op
  /\ (tst_traverse t = false -> tst_params t = Raw params)
  /\ (tst_traverse t = true -> exists st, tst_params t = Nested st)
  /\ (traversable op = false -> tst_traverse t = false)
  /\ (forall args, traversable op = true -> params = VArr args ->
                   tst_traverse t = negb (existsb literal args)).

(** A value without an [indexOf] method: anything but an array or a
    string. *)
Definition no_indexOf (v : value) : bool :=
  match v with
  | VArr _ | VStr _ => false
  | _ => true
  end.

(** The connective of a logical comparator, on the answers of the nested
    expressions. *)
Definition connective (f : fnref) (bs : list bool) : bool :=
  match f with
  | fn_and => forallb (fun b => b) bs
  | fn_or => existsb (fun b => b) bs
  | fn_nor => negb (existsb (fun b => b) bs)
  | _ => false
  end.


(** One turn of the loop of [_testFilter], started from [res = true]. *)
Definition test_node (get : value -> string -> value) (val : value) (t : tst)
  : outcome bool :=
  arg <- argument get val (tst_params t) (tst_traverse t) ;;
  apply_fn (tst_fn t) val arg true.

(** The two expressions of [or_query], compiled. *)
Definition hello_filter : Filter :=
  mkFilter (VObj [("hello", VBool true)])
           [Qry [Tst (Some fn_eq) (Raw (VBool true)) false] (Some "hello")].

Definition universe_filter : Filter :=
  mkFilter (VObj [("universe", VBool true)])
           [Qry [Tst (Some fn_eq) (Raw (VBool true)) false] (Some "universe")].

(** The node [parseFilter] pushes for the key and value [kv], where
    [pq] compiles the nested expressions.  Its comparator is what the
    table answers under the key.  Its flag is on exactly when
    [TRAVERSABLE] answers for the key and no element of the value is a
    literal; then [params] holds the compiled stacks of the elements, in
    order, and nothing else.  With the flag off, [params] is the value as
    the query has it. *)
Definition node_of (pq : value -> outcome (list qry)) (kv : string * value)
    (t : tst) : Prop :=
  tst_fn t = resolve (fst kv)
  /\ (tst_traverse t = false ->
      tst_params t = Raw (snd kv)
      /\ (traversable (fst kv) = false
          \/ exists ps, JS.elements (snd kv) = Ret ps /\ existsb literal ps = true))
  /\ (tst_traverse t = true ->
      traversable (fst kv) = true
      /\ exists ps qs,
          JS.elements (snd kv) = Ret ps
          /\ existsb literal ps = false
          /\ mapM pq ps = Ret qs
          /\ tst_params t = Nested (map Some qs)).

(** The path of the clause compiled for a key. *)
Definition path_of_key (cmd : string) : option string :=
  if dollar cmd then None else Some cmd.

(** * Properties *)

(** ** Outcomes and loops *)

Lemma foldM_ext {A S : Type} (f g : S -> A -> outcome S) (xs : list A) (s : S) :
  (forall t x, In x xs -> f t x = g t x) -> foldM f xs s = foldM g xs s.
Proof.
  revert s. induction xs as [| x xs IH]; intros s H; cbn; [reflexivity|].
  rewrite (H s x) by (left; reflexivity).
  destruct (g s x); cbn; auto.
  apply IH. intros. apply H. right. assumption.
Qed.

Lemma mapM_Ret {A B : Type} (f : A -> B) (xs : list A) :
  mapM (fun x => Ret (f x)) xs = Ret (map f xs).
Proof. induction xs as [| x xs IH]; cbn; [reflexivity|]. rewrite IH. reflexivity. Qed.

(** ** Reading an array *)

Lemma map_nth_seq (pre xs : list value) :
  map (fun i => nth i (pre ++ xs) VUndef) (seq (List.length pre) (List.length xs)) = xs.
Proof.
  revert pre. induction xs as [| x xs IH]; intro pre; cbn; [reflexivity|].
  f_equal.
  - rewrite app_nth2 by lia. rewrite Nat.sub_diag. reflexivity.
  - specialize (IH (pre ++ [x])). rewrite <- app_assoc in IH. cbn in IH.
    rewrite length_app in IH. cbn in IH. rewrite Nat.add_1_r in IH. exact IH.
Qed.

Lemma map_nth_seq0 (xs : list value) :
  map (fun i => nth i xs VUndef) (seq 0 (List.length xs)) = xs.
Proof. exact (map_nth_seq [] xs). Qed.

(** The loop [for (i = 0; i < a.length; i++)] over an array reads its
    elements, in order. *)
Lemma elements_VArr (xs : list value) : JS.elements (VArr xs) = Ret xs.
Proof.
  unfold JS.elements. cbn. rewrite Nat2Z.id.
  change (JS.at_index (VArr xs)) with (fun i => @Ret value (nth i xs VUndef)).
  rewrite mapM_Ret. f_equal. apply (map_nth_seq [] xs).
Qed.

(** ** The knot of the two evaluation functions *)

Lemma test_clause_eq (get : value -> string -> value) (val : value)
    (test : list tst) (path : option string) :
  test_clause get val (Qry test path) = _testFilter get (element get val path) test.
Proof. reflexivity. Qed.

(** ** The three array methods *)

Lemma keep_In {X : Type} (xs : list X) (bs : list bool) (x : X) :
  In x (keep xs bs) -> In x xs.
Proof.
  revert bs. induction xs as [| y xs IH]; intros [| [] bs]; cbn; try tauto.
  - intros [H | H]; [left; assumption | right; eauto].
  - intro H. right. eauto.
Qed.

Lemma keep_seq_sorted (a n : nat) (bs : list bool) :
  StronglySorted lt (keep (seq a n) bs).
Proof.
  revert a bs. induction n as [| n IH]; intros a bs; cbn.
  - constructor.
  - destruct bs as [| [] bs]; [constructor | | apply IH].
    constructor; [apply IH|].
    apply Forall_forall. intros i Hi. apply keep_In in Hi.
    apply in_seq in Hi. lia.
Qed.

Lemma keep_seq_In (a : nat) (bs : list bool) (i : nat) :
  In i (keep (seq a (List.length bs)) bs) <->
  a <= i /\ nth_error bs (i - a) = Some true.
Proof.
  revert a. induction bs as [| b bs IH]; intro a; cbn.
  - split; [tauto|]. intros [_ H]. destruct (i - a); discriminate.
  - assert (Hrec : In i (keep (seq (S a) (List.length bs)) bs) <->
                   a <= i /\ i <> a /\ nth_error (b :: bs) (i - a) = Some true).
    { rewrite IH. split.
      - intros [H1 H2]. repeat split; try lia.
        replace (i - a) with (S (i - S a)) by lia. exact H2.
      - intros (H1 & H2 & H3). split; [lia|].
        replace (i - a) with (S (i - S a)) in H3 by lia. exact H3. }
    destruct b; cbn; rewrite Hrec.
    + split.
      * intros [<- | (H1 & H2 & H3)]; [|tauto].
        rewrite Nat.sub_diag. split; [lia | reflexivity].
      * intros [H1 H2]. destruct (Nat.eq_dec a i) as [-> | Hne]; [left; reflexivity|].
        right. repeat split; auto.
    + split; [tauto|]. intros [H1 H2]. repeat split; auto.
      intros ->. rewrite Nat.sub_diag in H2. discriminate.
Qed.

Lemma keep_map_nth {X : Type} (d : X) (pre xs : list X) (bs : list bool) :
  keep xs bs =
  map (fun i => nth i (pre ++ xs) d) (keep (seq (List.length pre) (List.length xs)) bs).
Proof.
  revert pre bs. induction xs as [| x xs IH]; intros pre bs; cbn; [reflexivity|].
  destruct bs as [| b bs]; [reflexivity|].
  specialize (IH (pre ++ [x]) bs).
  rewrite <- app_assoc, length_app in IH. cbn in IH. rewrite Nat.add_1_r in IH.
  destruct b; cbn; rewrite <- IH; [|reflexivity].
  rewrite app_nth2 by lia. rewrite Nat.sub_diag. reflexivity.
Qed.

Section Shaping.

Variable get : value -> string -> value.
Variable st : list qry.

(** What the three loops leave in [res] when every record's test
    returns; [bs] are the answers. *)
Lemma pass_loop (A : list value) (bs acc : list bool) :
  Forall2 (fun a b => testFilter get a st = Ret b) A bs ->
  foldM (fun res datum => r <- testFilter get datum st ;; Ret (res ++ [r])) A acc
  = Ret (acc ++ bs).
Proof.
  intro H. revert acc. induction H as [| a b A bs Hab _ IH]; intro acc; cbn.
  - rewrite app_nil_r. reflexivity.
  - rewrite Hab. cbn. rewrite IH, <- app_assoc. reflexivity.
Qed.

Lemma subset_loop (A : list value) (bs : list bool) (acc : list value) :
  Forall2 (fun a b => testFilter get a st = Ret b) A bs ->
  foldM (fun res datum =>
           r <- testFilter get datum st ;; Ret (if r then res ++ [datum] else res))
        A acc
  = Ret (acc ++ keep A bs).
Proof.
  intro H. revert acc. induction H as [| a b A bs Hab _ IH]; intro acc; cbn.
  - rewrite app_nil_r. reflexivity.
  - rewrite Hab. cbn. rewrite IH. destruct b; [|reflexivity].
    rewrite <- app_assoc. reflexivity.
Qed.

Lemma index_loop (A : list value) (bs : list bool) (acc : list nat) (di : nat) :
  Forall2 (fun a b => testFilter get a st = Ret b) A bs ->
  foldM (fun '(res, di) datum =>
           r <- testFilter get datum st ;;
           Ret (if r then res ++ [di] else res, S di))
        A (acc, di)
  = Ret (acc ++ keep (seq di (List.length bs)) bs, di + List.length bs).
Proof.
  intro H. revert acc di. induction H as [| a b A bs Hab _ IH]; intros acc di; cbn.
  - rewrite app_nil_r, Nat.add_0_r. reflexivity.
  - rewrite Hab. cbn. rewrite IH. rewrite Nat.add_succ_r.
    destruct b; [|reflexivity].
    rewrite <- app_assoc. reflexivity.
Qed.

(** A loop whose results are [bs] ran every test to its return. *)
Lemma pass_loop_inv (A : list value) (acc res : list bool) :
  foldM (fun res datum => r <- testFilter get datum st ;; Ret (res ++ [r])) A acc
  = Ret res ->
  exists bs, res = acc ++ bs /\
             Forall2 (fun a b => testFilter get a st = Ret b) A bs.
Proof.
  revert acc. induction A as [| a A IH]; intros acc H; cbn in H.
  - injection H as <-. exists []. rewrite app_nil_r. split; constructor.
  - destruct (testFilter get a st) as [b | |] eqn:Hb; try discriminate.
    cbn in H. apply IH in H. destruct H as (bs & -> & HF).
    exists (b :: bs). rewrite <- app_assoc. split; [reflexivity|].
    constructor; assumption.
Qed.

End Shaping.

Example or_filter_compiled : compile or_query = Ret or_filter.
Proof. reflexivity. Qed.

(** [pass] returns exactly when every record's test returns. *)
Lemma pass_returns (get : value -> string -> value) (f : Filter)
    (A : list value) (bs : list bool) :
  pass get f (VArr A) = Ret bs <->
  Forall2 (fun a b => test get f a = Ret b) A bs.
Proof.
  unfold pass, test. rewrite elements_VArr. cbn [bind]. split.
  - intro H. apply pass_loop_inv in H. destruct H as (bs' & -> & H). exact H.
  - intro H. apply (pass_loop get (stack f) A bs []) in H. exact H.
Qed.

(** X22.  For a filter [f] and an array [A] of records on each of which
    [test] returns, with answers [bs]: [pass(A)] is [bs], one boolean per
    record, [pass(A)[i]] being [test(A[i])]; [index(A)] is strictly
    ascending and holds exactly the indices [i] with [pass(A)[i]] true;
    [subset(A)] is [[A[i] for i in index(A)]], in that order. *)
Theorem order_preservation (get : value -> string -> value) (f : Filter)
    (A : list value) (bs : list bool) :
  Forall2 (fun a b => test get f a = Ret b) A bs ->
  pass get f (VArr A) = Ret bs
  /\ List.length bs = List.length A
  /\ (forall i a, nth_error A i = Some a ->
                  exists b, nth_error bs i = Some b /\ test get f a = Ret b)
  /\ exists idx,
       index get f (VArr A) = Ret idx
       /\ StronglySorted lt idx
       /\ (forall i, In i idx <-> nth_error bs i = Some true)
       /\ subset get f (VArr A) = Ret (map (fun i => nth i A VUndef) idx).
Proof.
  intro H.
  assert (Hlen : List.length bs = List.length A)
    by (symmetry; eapply Forall2_length; eassumption).
  split; [apply pass_returns; exact H|].
  split; [exact Hlen|].
  split.
  - intros i a Hi.
    revert i Hi. induction H as [| a' b A bs Hab _ IH]; intros [| i] Hi;
      try discriminate.
    + injection Hi as <-. exists b. split; [reflexivity | exact Hab].
    + cbn in Hi |- *. apply IH; [|exact Hi]. cbn in Hlen. lia.
  - exists (keep (seq 0 (List.length bs)) bs). repeat split.
    + unfold index. rewrite elements_VArr. cbn [bind].
      rewrite (index_loop get (stack f) A bs [] 0 H). reflexivity.
    + apply keep_seq_sorted.
    + intro Hi. apply keep_seq_In in Hi. rewrite Nat.sub_0_r in Hi. tauto.
    + intro Hi. apply keep_seq_In. rewrite Nat.sub_0_r. split; [lia | exact Hi].
    + unfold subset. rewrite elements_VArr. cbn [bind].
      rewrite (subset_loop get (stack f) A bs [] H). cbn [app].
      rewrite Hlen. f_equal. apply (keep_map_nth VUndef [] A bs).
Qed.

Lemma order_preservation_witness :
  Forall2 (fun a b => test Path.deep_get or_filter a = Ret b)
          or_records [true; false; true; false]
  /\ (pass Path.deep_get or_filter (VArr or_records) = Ret [true; false; true; false]
      /\ List.length [true; false; true; false] = List.length or_records
      /\ (forall i a, nth_error or_records i = Some a ->
                      exists b, nth_error [true; false; true; false] i = Some b
                                /\ test Path.deep_get or_filter a = Ret b)
      /\ exists idx,
           index Path.deep_get or_filter (VArr or_records) = Ret idx
           /\ StronglySorted lt idx
           /\ (forall i, In i idx <-> nth_error [true; false; true; false] i = Some true)
           /\ subset Path.deep_get or_filter (VArr or_records)
              = Ret (map (fun i => nth i or_records VUndef) idx)).
Proof.
  split; [repeat constructor | apply order_preservation; repeat constructor].
Defined.

(** C4.  [pass], [index] and [subset] answer for no array that holds a
    record on which [test] throws: under [{ tags: { $all: [1] } }] the
    record [{ tags: [1] }] passes, the record [{}] makes [$all] read
    [indexOf] of [undefined], and on the array of the two the three
    methods throw instead of returning [[true, false]], [[0]] and
    [[{ tags: [1] }]]; so it is for [{ $all: [1] }] over [[[1], 5]],
    whatever the path lookup. *)
Theorem shaping_throws :
  (f <- compile (VObj [("tags", VObj [("$all", VArr [num_ 1])])]) ;;
   test Path.deep_get f (VObj [("tags", VArr [num_ 1])])) = Ret true
  /\ (f <- compile (VObj [("tags", VObj [("$all", VArr [num_ 1])])]) ;;
      pass Path.deep_get f (VArr [VObj [("tags", VArr [num_ 1])]; VObj []]))
     = Throw TypeError
  /\ (f <- compile (VObj [("tags", VObj [("$all", VArr [num_ 1])])]) ;;
      index Path.deep_get f (VArr [VObj [("tags", VArr [num_ 1])]; VObj []]))
     = Throw TypeError
  /\ (f <- compile (VObj [("tags", VObj [("$all", VArr [num_ 1])])]) ;;
      subset Path.deep_get f (VArr [VObj [("tags", VArr [num_ 1])]; VObj []]))
     = Throw TypeError
  /\ forall get : value -> string -> value,
       (f <- compile (VObj [("$all", VArr [num_ 1])]) ;;
        pass get f (VArr [VArr [num_ 1]; num_ 5])) = Throw TypeError
       /\ (f <- compile (VObj [("$all", VArr [num_ 1])]) ;;
           index get f (VArr [VArr [num_ 1]; num_ 5])) = Throw TypeError
       /\ (f <- compile (VObj [("$all", VArr [num_ 1])]) ;;
           subset get f (VArr [VArr [num_ 1]; num_ 5])) = Throw TypeError.
Proof. repeat split. Qed.

(** The scenario of the spec: [pass = [true, false, true, false]],
    [index = [0, 2]], [subset = [record0, record2]]. *)
Example or_scenario :
  pass Path.deep_get or_filter (VArr or_records) = Ret [true; false; true; false]
  /\ index Path.deep_get or_filter (VArr or_records) = Ret [0; 2]
  /\ subset Path.deep_get or_filter (VArr or_records)
     = Ret [VObj [("hello", VBool true)];
            VObj [("hello", VBool false); ("universe", VBool true)]].
Proof. repeat split. Qed.

(** C9.  [{}] compiles to the empty stack; the filter's [test] is true on
    every record, so [subset] returns the whole array, [pass] all [true],
    and [index] every index. *)
Theorem empty_expression :
  compile (VObj []) = Ret (mkFilter (VObj []) [])
  /\ forall (get : value -> string -> value) (r : value) (A : list value),
       let f := mkFilter (VObj []) [] in
       test get f r = Ret true
       /\ subset get f (VArr A) = Ret A
       /\ pass get f (VArr A) = Ret (repeat true (List.length A))
       /\ index get f (VArr A) = Ret (seq 0 (List.length A)).
Proof.
  split; [reflexivity|]. intros get r A f.
  assert (H : Forall2 (fun a b => testFilter get a (stack f) = Ret b) A
                      (repeat true (List.length A))).
  { induction A; cbn; constructor; auto. }
  assert (Hk : forall (X : Type) (xs : list X),
             keep xs (repeat true (List.length xs)) = xs).
  { intros X xs. induction xs; cbn; [reflexivity | f_equal; assumption]. }
  split; [reflexivity|]. unfold subset, pass, index.
  rewrite elements_VArr. cbn [bind]. repeat split.
  - rewrite (subset_loop get (stack f) A _ [] H). cbn [app].
    rewrite Hk. reflexivity.
  - rewrite (pass_loop get (stack f) A _ [] H). reflexivity.
  - rewrite (index_loop get (stack f) A _ [] 0 H). cbn [bind fst app].
    rewrite repeat_length.
    rewrite <- (Hk nat (seq 0 (List.length A))) at 2.
    rewrite length_seq. reflexivity.
Qed.

(** ** Operators at the root *)

Lemma c_lt_num (a b : Z) : c_lt (num_ a) (num_ b) = Ret (Z.ltb a b).
Proof. reflexivity. Qed.

Lemma c_gt_num (a b : Z) : c_gt (num_ a) (num_ b) = Ret (Z.gtb a b).
Proof. reflexivity. Qed.

(** An object whose keys are all operators compiles to clauses without a
    path, each holding the condition group of the whole object. *)
Lemma operator_keys_no_path (n : nat) (props : list (string * value))
    (t : list tst) :
  Forall (fun kv => dollar (fst kv) = true) props ->
  parseFilter n (VObj props) = Ret t ->
  parseQuery (S n) (VObj props) = Ret (map (fun _ => Qry t None) props).
Proof.
  intros Hd Ht.
  assert (G : forall (q : value) (l : list (string * value)) (acc : list qry),
             Forall (fun kv => dollar (fst kv) = true) l ->
             parseFilter n q = Ret t ->
             foldM (parse_clause (parseFilter n) q) l acc
             = Ret (acc ++ map (fun _ => Qry t None) l)).
  { intros q l acc Hl Hq. revert acc.
    induction Hl as [| [cmd params] l Hc _ IH]; intro acc; cbn [foldM map].
    - rewrite app_nil_r. reflexivity.
    - unfold parse_clause at 1. cbn [fst] in Hc. rewrite Hc, Hq. cbn [bind].
      rewrite IH, <- app_assoc. reflexivity. }
  cbn [parseQuery JS.for_in]. rewrite (G _ _ [] Hd Ht). reflexivity.
Qed.

(** Clauses without a path hand the value under test itself to
    [_testFilter]; the path lookup plays no part. *)
Lemma no_path_tests_value (get : value -> string -> value) (val : value)
    (t : list tst) (A : Type) (props : list A) :
  testFilter get val (map (fun _ => Qry t None) props)
  = foldM (fun pass _ =>
             res <- _testFilter get val t ;;
             Ret (if negb res then false else pass))
          props true.
Proof.
  unfold testFilter. generalize true as init.
  induction props as [| kv props IH]; intro init; cbn [map foldM]; [reflexivity|].
  rewrite test_clause_eq. cbn [element].
  destruct (_testFilter get val t); cbn [bind]; try reflexivity. apply IH.
Qed.

(** C8.  An expression whose keys are all operator tokens compiles to
    clauses without a path, each holding the condition group of the whole
    expression, and [test] applies that group to the record itself.  So
    [{ $lt: 10, $gt: 5 }] gives [test(8)] true, [test(4)] and [test(11)]
    false, and [z < 10 && z > 5] on any number [z]. *)
Theorem root_operators (get : value -> string -> value) :
  (forall (n : nat) (props : list (string * value)) (t : list tst),
      Forall (fun kv => dollar (fst kv) = true) props ->
      parseFilter n (VObj props) = Ret t ->
      parseQuery (S n) (VObj props) = Ret (map (fun _ => Qry t None) props)
      /\ forall val,
          testFilter get val (map (fun _ => Qry t None) props)
          = foldM (fun pass _ =>
                     res <- _testFilter get val t ;;
                     Ret (if negb res then false else pass))
                  props true)
  /\ exists f,
      compile range_query = Ret f
      /\ Forall (fun c => qry_path c = None) (stack f)
      /\ test get f (num_ 8) = Ret true
      /\ test get f (num_ 4) = Ret false
      /\ test get f (num_ 11) = Ret false
      /\ forall z, test get f (num_ z) = Ret (Z.ltb z 10 && Z.gtb z 5).
Proof.
  split.
  { intros n props t Hd Ht. split.
    - apply operator_keys_no_path; assumption.
    - intro val. apply no_path_tests_value. }
  eexists. split; [reflexivity|].
  split; [repeat constructor|].
  assert (H : forall z, test get
                (mkFilter range_query
                   [Qry [Tst (Some fn_lt) (Raw (num_ 10)) false;
                         Tst (Some fn_gt) (Raw (num_ 5)) false] None;
                    Qry [Tst (Some fn_lt) (Raw (num_ 10)) false;
                         Tst (Some fn_gt) (Raw (num_ 5)) false] None])
                (num_ z) = Ret (Z.ltb z 10 && Z.gtb z 5)).
  { intro z. unfold test, testFilter. cbn [stack foldM].
    rewrite !test_clause_eq. unfold _testFilter, element.
    cbn [foldM argument apply_fn arity Nat.eqb Nat.ltb Nat.leb call nth bind].
    rewrite c_lt_num, c_gt_num. cbn [bind].
    destruct (Z.ltb z 10), (Z.gtb z 5); reflexivity. }
  repeat split; try exact H; apply (H _).
Qed.

(** ** The size comparator at zero *)

(** C7.  [$size([], 0)] is false although the empty array has length 0:
    the guard [a.length && b] takes a length of 0, and an argument of 0,
    for "no length". *)
Theorem size_of_empty :
  c_size (VArr []) (num_ 0) = Ret false
  /\ c_size (VStr "") (num_ 0) = Ret false
  /\ forall get : value -> string -> value,
       (f <- compile (VObj [("$size", num_ 0)]) ;; test get f (VArr []))
       = Ret false.
Proof. repeat split. Qed.

(** Away from zero the comparator does compare the length. *)
Lemma size_of_array (xs : list value) (z : Z) :
  xs <> [] -> z <> 0%Z ->
  c_size (VArr xs) (num_ z) = Ret (Z.eqb (Z.of_nat (List.length xs)) z).
Proof.
  intros Hx Hz. unfold c_size. cbn.
  destruct xs as [| x xs]; [congruence|].
  destruct (Z.eqb_spec (Z.of_nat (List.length (x :: xs))) 0) as [E | _];
    [cbn in E; lia|].
  destruct (Z.eqb_spec z 0) as [E | _]; [congruence|].
  reflexivity.
Qed.

Lemma size_no_length (b : value) :
  c_size VUndef b = Ret false /\ c_size VNull b = Ret false
  /\ (forall n, c_size (VNum n) b = Ret false)
  /\ (forall x, c_size (VBool x) b = Ret false).
Proof.
  repeat split; try reflexivity.
  - intros [| z]; cbn; [reflexivity|]. unfold c_size. cbn.
    destruct (Z.eqb z 0); reflexivity.
  - intros []; reflexivity.
Qed.

(** ** Comparators that throw *)

(** C2.  [$all] reads [a.indexOf] whatever [a] is, and [$in] reads
    [b.indexOf]: on a record without the field, or on a number, the call
    throws instead of answering false, and so does [test]. *)
Theorem evaluation_throws :
  c_all VUndef (VArr [num_ 1]) = Throw TypeError
  /\ c_in (num_ 1) (num_ 5) = Throw TypeError
  /\ (f <- compile (VObj [("tags", VObj [("$all", VArr [num_ 1])])]) ;;
      test Path.deep_get f (VObj [])) = Throw TypeError
  /\ forall get : value -> string -> value,
       (f <- compile (VObj [("$all", VArr [num_ 1])]) ;; test get f (num_ 5))
       = Throw TypeError.
Proof. repeat split. Qed.

(** ** What the compiler produces *)

Lemma TRAVERSABLE_arity (op : string) :
  TRAVERSABLE op = true ->
  exists f, comparators op = Some f /\ arity f = 1.
Proof.
  unfold TRAVERSABLE. intro H.
  apply orb_true_iff in H. destruct H as [H | H];
    [apply orb_true_iff in H; destruct H as [H | H]|];
    apply String.eqb_eq in H; subst op; eexists; split; reflexivity.
Qed.

(** An own property of a table hides the inherited ones, and a name that
    [Object.prototype] does not have is looked up in the table alone. *)
Lemma resolve_own (op : string) (f : fnref) :
  comparators op = Some f -> resolve op = Some f.
Proof. unfold resolve. intros ->. reflexivity. Qed.

Lemma resolve_plain (op : string) :
  proto_key op = false -> resolve op = comparators op.
Proof. unfold resolve. intros ->. destruct (comparators op); reflexivity. Qed.

Lemma traversable_own (op : string) :
  TRAVERSABLE op = true -> traversable op = true.
Proof. unfold traversable. intros ->. reflexivity. Qed.

Lemma traversable_plain (op : string) :
  proto_key op = false -> traversable op = TRAVERSABLE op.
Proof. unfold traversable. intros ->. apply orb_false_r. Qed.

(** The loop over the elements only ever switches [traverse] off. *)
Lemma parse_element_loop (pq : value -> outcome (list qry)) (ps : list value)
    (tr tr' : bool) (nq nq' : option (list qry)) (st st' : list (option (list qry))) :
  foldM (parse_element pq) ps (tr, nq, st) = Ret (tr', nq', st') ->
  tr' = tr && negb (existsb literal ps).
Proof.
  revert tr nq st. induction ps as [| p ps IH]; intros tr nq st; cbn [foldM existsb].
  - intro H. injection H as <- _ _. destruct tr; reflexivity.
  - unfold parse_element at 1. destruct (literal p); cbn [bind orb negb].
    + intro H. apply IH in H. rewrite H. destruct tr; reflexivity.
    + destruct (pq p); cbn [bind]; try discriminate.
      intro H. apply IH in H. exact H.
Qed.

Lemma parse_test_node (pq : value -> outcome (list qry))
    (stack stack' : list tst) (nq nq' : option (list qry))
    (op : string) (params : value) :
  parse_test pq (stack, nq) (op, params) = Ret (stack', nq') ->
  exists t, stack' = stack ++ [t] /\ compiled_node op params t.
Proof.
  unfold parse_test. destruct (traversable op) eqn:Ht.
  - destruct (JS.elements params) as [ps | |] eqn:Hps; cbn [bind]; try discriminate.
    destruct (foldM (parse_element pq) ps (true, nq, [])) as [[[tr nq1] st] | |] eqn:Hl;
      cbn [bind]; try discriminate.
    intro H. injection H as <- <-. eexists. split; [reflexivity|].
    unfold compiled_node. cbn [tst_fn tst_params tst_traverse].
    repeat split.
    + intros ->. reflexivity.
    + intros ->. eexists. reflexivity.
    + congruence.
    + intros args _ ->. rewrite elements_VArr in Hps. injection Hps as <-.
      apply parse_element_loop in Hl. exact Hl.
  - intro H. injection H as <- <-. eexists. split; [reflexivity|].
    unfold compiled_node. cbn [tst_fn tst_params tst_traverse].
    repeat split; congruence.
Qed.

Lemma parse_test_loop (pq : value -> outcome (list qry))
    (kvs : list (string * value)) (stack stack' : list tst)
    (nq nq' : option (list qry)) :
  foldM (parse_test pq) kvs (stack, nq) = Ret (stack', nq') ->
  exists ts, stack' = stack ++ ts
             /\ Forall2 (fun kv t => compiled_node (fst kv) (snd kv) t) kvs ts.
Proof.
  revert stack nq. induction kvs as [| [op params] kvs IH]; intros stack nq; cbn [foldM].
  - intro H. injection H as <- _. exists []. rewrite app_nil_r. split; constructor.
  - destruct (parse_test pq (stack, nq) (op, params)) as [[s1 nq1] | |] eqn:H1;
      cbn [bind]; try discriminate.
    intro H. apply parse_test_node in H1. destruct H1 as (t & -> & Ht).
    apply IH in H. destruct H as (ts & -> & Hts).
    exists (t :: ts). rewrite <- app_assoc. split; [reflexivity|].
    constructor; assumption.
Qed.

(** Every key of a condition group compiles to one node, in order. *)
Lemma parseFilter_nodes (n : nat) (query : value) (stack : list tst) :
  parseFilter n query = Ret stack ->
  Forall2 (fun kv t => compiled_node (fst kv) (snd kv) t) (JS.for_in query) stack.
Proof.
  destruct n as [| n]; cbn [parseFilter]; [discriminate|].
  destruct (foldM (parse_test (parseQuery n)) (JS.for_in query) ([], None))
    as [[s nq] | |] eqn:H; cbn [bind]; try discriminate.
  intro E. injection E as <-. apply parse_test_loop in H.
  destruct H as (ts & -> & H). exact H.
Qed.

Lemma Forall2_nth_error {A B : Type} (R : A -> B -> Prop) (xs : list A)
    (ys : list B) (i : nat) (x : A) :
  Forall2 R xs ys -> nth_error xs i = Some x ->
  exists y, nth_error ys i = Some y /\ R x y.
Proof.
  intro H. revert i. induction H as [| x' y' xs ys Hxy _ IH]; intros [| i] Hi;
    try discriminate.
  - injection Hi as <-. exists y'. split; [reflexivity | assumption].
  - apply IH. exact Hi.
Qed.

(** A condition group without logical operators compiles key by key. *)
Lemma parseFilter_plain (n : nat) (props : list (string * value)) :
  Forall (fun kv => proto_key (fst kv) = false /\ TRAVERSABLE (fst kv) = false) props ->
  parseFilter (S n) (VObj props)
  = Ret (map (fun kv => Tst (comparators (fst kv)) (Raw (snd kv)) false) props).
Proof.
  intro H. cbn [parseFilter JS.for_in].
  assert (G : forall stack nq,
             foldM (parse_test (parseQuery n)) props (stack, nq)
             = Ret (stack ++ map (fun kv => Tst (comparators (fst kv)) (Raw (snd kv)) false)
                                 props, nq)).
  { induction H as [| [op params] l [Hp Ht] _ IH]; intros stack nq; cbn [foldM map].
    - rewrite app_nil_r. reflexivity.
    - unfold parse_test at 1. cbn [fst snd] in *.
      rewrite (resolve_plain _ Hp), (traversable_plain _ Hp), Ht. cbn [bind].
      rewrite IH, <- app_assoc. reflexivity. }
  rewrite G. reflexivity.
Qed.

(** A clause [{ field: cond }] for a path [field] and a condition group
    [cond]. *)
Lemma parseQuery_field (n : nat) (field : string) (cond : value) (t : list tst) :
  dollar field = false -> literal cond = false ->
  parseFilter n cond = Ret t ->
  parseQuery (S n) (VObj [(field, cond)]) = Ret [Qry t (Some field)].
Proof.
  intros Hd Hl Ht. cbn [parseQuery JS.for_in foldM]. unfold parse_clause.
  rewrite Hd, Hl, Ht. reflexivity.
Qed.

(** A clause [{ field: v }] for a literal [v]. *)
Lemma parseQuery_literal (n : nat) (field : string) (v : value) :
  dollar field = false -> literal v = true ->
  parseQuery (S (S n)) (VObj [(field, v)])
  = Ret [Qry [Tst (Some fn_eq) (Raw v) false] (Some field)].
Proof.
  intros Hd Hl. cbn [parseQuery JS.for_in foldM]. unfold parse_clause.
  rewrite Hd, Hl. rewrite parseFilter_plain by (repeat constructor).
  reflexivity.
Qed.

(** ** Unknown operators *)



Lemma chars_literal (s : string) (v : value) : In v (JS.chars s) -> literal v = true.
Proof.
  induction s as [| c s IH]; cbn; [tauto|].
  intros [<- | H]; [reflexivity | auto].
Qed.

Lemma chars_length (s : string) : List.length (JS.chars s) = String.length s.
Proof. induction s; cbn; congruence. Qed.

Lemma literal_depth (v : value) : literal v = true -> depth v = 0.
Proof. destruct v; cbn; try discriminate; reflexivity. Qed.









(** ** Literals in the argument of a logical operator *)

(** C3.  In a condition group that compiles, a key [$and], [$or] or
    [$nor] whose argument array holds at least one literal gives a node
    with [traverse = false] and the array itself as [params]; evaluating
    the node is one call of the comparator on that array, whatever the
    value under test, so the stacks compiled from the array's objects are
    not evaluated. *)
Theorem literal_disables_traversal (n : nat) (query : value) (stack : list tst)
    (i : nat) (op : string) (args : list value) :
  parseFilter n query = Ret stack ->
  nth_error (JS.for_in query) i = Some (op, VArr args) ->
  TRAVERSABLE op = true ->
  existsb literal args = true ->
  exists f,
    comparators op = Some f
    /\ nth_error stack i = Some (Tst (Some f) (Raw (VArr args)) false)
    /\ forall (get : value -> string -> value) (val : value),
         _testFilter get val [Tst (Some f) (Raw (VArr args)) false]
         = call f [VArr args].
Proof.
  intros Hp Hi Ht Hl.
  destruct (TRAVERSABLE_arity op Ht) as (f & Hf & Ha).
  exists f. split; [exact Hf|].
  apply parseFilter_nodes in Hp.
  destruct (Forall2_nth_error _ _ _ _ _ Hp Hi)
    as ([fn ps tr] & Hn & H1 & H2 & _ & _ & H4).
  cbn [fst snd tst_fn tst_params tst_traverse] in *.
  specialize (H4 args (traversable_own _ Ht) eq_refl).
  rewrite Hl in H4. cbn in H4. subst tr.
  specialize (H2 eq_refl). subst ps.
  split; [rewrite Hn, H1, (resolve_own _ _ Hf); reflexivity|].
  intros get val. unfold _testFilter. cbn [foldM argument bind apply_fn].
  rewrite Ha. cbn [Nat.eqb].
  destruct (call f [VArr args]) as [[] | |]; reflexivity.
Qed.

Lemma literal_disables_traversal_witness :
  (parseFilter 3 (VObj [("$and", VArr [VObj [("$gt", num_ 5)]; num_ 1])])
   = Ret [Tst (Some fn_and) (Raw (VArr [VObj [("$gt", num_ 5)]; num_ 1])) false]
   /\ nth_error (JS.for_in (VObj [("$and", VArr [VObj [("$gt", num_ 5)]; num_ 1])])) 0
      = Some ("$and", VArr [VObj [("$gt", num_ 5)]; num_ 1])
   /\ TRAVERSABLE "$and" = true
   /\ existsb literal [VObj [("$gt", num_ 5)]; num_ 1] = true)
  /\ exists f,
      comparators "$and" = Some f
      /\ nth_error [Tst (Some fn_and) (Raw (VArr [VObj [("$gt", num_ 5)]; num_ 1])) false] 0
         = Some (Tst (Some f) (Raw (VArr [VObj [("$gt", num_ 5)]; num_ 1])) false)
      /\ forall (get : value -> string -> value) (val : value),
           _testFilter get val
             [Tst (Some f) (Raw (VArr [VObj [("$gt", num_ 5)]; num_ 1])) false]
           = call f [VArr [VObj [("$gt", num_ 5)]; num_ 1]].
Proof.
  split; [repeat split |].
  apply (literal_disables_traversal 3
           (VObj [("$and", VArr [VObj [("$gt", num_ 5)]; num_ 1])])); reflexivity.
Defined.

(** The nested [{ $gt: 5 }] would reject the record [{ x: 0 }]; beside a
    literal it is not evaluated, and [$and] sees two truthy elements. *)
Example mixed_array_passes :
  (f <- compile (VObj [("x", VObj [("$and", VArr [VObj [("$gt", num_ 5)]; num_ 1])])]) ;;
   test Path.deep_get f (VObj [("x", num_ 0)])) = Ret true
  /\ (f <- compile (VObj [("x", VObj [("$and", VArr [VObj [("$gt", num_ 5)]])])]) ;;
      test Path.deep_get f (VObj [("x", num_ 0)])) = Ret false.
Proof. split; reflexivity. Qed.

(** ** Defaulting rules *)

(** C5.  For a field path [k] and a literal [v], [{ k: v }] and
    [{ k: { $eq: v } }] compile to the same stack, a single [$eq] node
    with [v] under the path [k], and so test alike on every record. *)
Theorem literal_is_eq (k : string) (v : value) :
  dollar k = false -> literal v = true ->
  exists f1 f2,
    compile (VObj [(k, v)]) = Ret f1
    /\ compile (VObj [(k, VObj [("$eq", v)])]) = Ret f2
    /\ stack f1 = [Qry [Tst (Some fn_eq) (Raw v) false] (Some k)]
    /\ stack f2 = stack f1
    /\ forall (get : value -> string -> value) (r : value),
         test get f1 r = test get f2 r.
Proof.
  intros Hd Hl. unfold compile.
  rewrite (parseQuery_literal _ k v Hd Hl).
  rewrite (parseQuery_field _ k (VObj [("$eq", v)])
             [Tst (Some fn_eq) (Raw v) false] Hd eq_refl).
  - cbn [bind]. do 2 eexists. repeat split.
  - rewrite parseFilter_plain by (repeat constructor). reflexivity.
Qed.

Lemma literal_is_eq_witness :
  (dollar "hello" = false /\ literal (VStr "universe") = true)
  /\ exists f1 f2,
      compile (VObj [("hello", VStr "universe")]) = Ret f1
      /\ compile (VObj [("hello", VObj [("$eq", VStr "universe")])]) = Ret f2
      /\ stack f1 = [Qry [Tst (Some fn_eq) (Raw (VStr "universe")) false] (Some "hello")]
      /\ stack f2 = stack f1
      /\ forall (get : value -> string -> value) (r : value),
           test get f1 r = test get f2 r.
Proof.
  split; [split; reflexivity | apply literal_is_eq; reflexivity].
Defined.

(** The condition group [{ $and: [{ $gt: X }, { $lt: Y }] }]. *)
Lemma parseFilter_and_pair (n : nat) (X Y : value) :
  parseFilter (S (S (S n))) (VObj [("$and", VArr [VObj [("$gt", X)]; VObj [("$lt", Y)]])])
  = Ret [Tst (Some fn_and)
             (Nested [Some [Qry [Tst (Some fn_gt) (Raw X) false] None];
                      Some [Qry [Tst (Some fn_lt) (Raw Y) false] None]])
             true].
Proof.
  cbn [parseFilter JS.for_in foldM]. unfold parse_test.
  change (resolve "$and") with (Some fn_and). change (traversable "$and") with true.
  cbn iota. rewrite elements_VArr. cbn [bind foldM].
  unfold parse_element. change (literal (VObj [("$gt", X)])) with false.
  change (literal (VObj [("$lt", Y)])) with false. cbn iota.
  rewrite (operator_keys_no_path (S n) [("$gt", X)] [Tst (Some fn_gt) (Raw X) false]);
    [| repeat constructor | apply parseFilter_plain; repeat constructor].
  cbn [bind map].
  rewrite (operator_keys_no_path (S n) [("$lt", Y)] [Tst (Some fn_lt) (Raw Y) false]);
    [| repeat constructor | apply parseFilter_plain; repeat constructor].
  reflexivity.
Qed.

(** C6.  For a field path [field] and any [X], [Y]:
    [{ field: { $gt: X, $lt: Y } }] compiles to one clause with the two
    nodes [$gt X] and [$lt Y], and
    [{ field: { $and: [{ $gt: X }, { $lt: Y }] } }] to one clause with an
    [$and] node over the two nested stacks.  On every record, with [el]
    the value under [field], the first filter calls both comparators and
    answers [el > X && el < Y], and the second answers as the first: the
    conditions of one group are and-ed. *)
Theorem implicit_and (field : string) (X Y : value) :
  dollar field = false ->
  exists f1 f2,
    compile (VObj [(field, VObj [("$gt", X); ("$lt", Y)])]) = Ret f1
    /\ compile (VObj [(field, VObj [("$and", VArr [VObj [("$gt", X)];
                                                  VObj [("$lt", Y)]])])]) = Ret f2
    /\ stack f1 = [Qry [Tst (Some fn_gt) (Raw X) false; Tst (Some fn_lt) (Raw Y) false]
                       (Some field)]
    /\ stack f2 = [Qry [Tst (Some fn_and)
                            (Nested [Some [Qry [Tst (Some fn_gt) (Raw X) false] None];
                                     Some [Qry [Tst (Some fn_lt) (Raw Y) false] None]])
                            true]
                       (Some field)]
    /\ forall (get : value -> string -> value) (r : value),
         test get f1 r
         = (a <- c_gt (element get r (Some field)) X ;;
            b <- c_lt (element get r (Some field)) Y ;;
            Ret (a && b))
         /\ test get f2 r = test get f1 r.
Proof.
  intro Hd. unfold compile.
  rewrite (parseQuery_field _ field (VObj [("$gt", X); ("$lt", Y)])
             [Tst (Some fn_gt) (Raw X) false; Tst (Some fn_lt) (Raw Y) false]
             Hd eq_refl)
    by (apply parseFilter_plain; repeat constructor).
  cbn [depth map list_max fold_right snd Nat.max].
  rewrite (parseQuery_field _ field
             (VObj [("$and", VArr [VObj [("$gt", X)]; VObj [("$lt", Y)]])]) _
             Hd eq_refl (parseFilter_and_pair _ X Y)).
  cbn [bind]. do 2 eexists. split; [reflexivity|]. split; [reflexivity|].
  split; [reflexivity|]. split; [reflexivity|].
  intros get r. unfold test, testFilter. cbn [stack foldM].
  rewrite !test_clause_eq. generalize (element get r (Some field)) as el. intro el.
  unfold _testFilter.
  cbn [foldM argument mapM test_nested testFilter bind].
  rewrite !test_clause_eq.
  unfold _testFilter, element.
  cbn [foldM argument apply_fn arity Nat.eqb Nat.ltb Nat.leb call nth bind].
  destruct (c_gt el X) as [g | e |]; cbn [bind]; [| split; reflexivity ..].
  destruct (c_lt el Y) as [l | e |]; cbn [bind];
    [ | destruct g; split; reflexivity | destruct g; split; reflexivity].
  unfold c_and. rewrite elements_VArr.
  destruct g, l; split; reflexivity.
Qed.

Lemma implicit_and_witness :
  dollar "a.b" = false
  /\ exists f1 f2,
      compile (VObj [("a.b", VObj [("$gt", num_ 75); ("$lt", num_ 125)])]) = Ret f1
      /\ compile (VObj [("a.b", VObj [("$and", VArr [VObj [("$gt", num_ 75)];
                                                    VObj [("$lt", num_ 125)]])])])
         = Ret f2
      /\ stack f1 = [Qry [Tst (Some fn_gt) (Raw (num_ 75)) false;
                          Tst (Some fn_lt) (Raw (num_ 125)) false]
                         (Some "a.b")]
      /\ stack f2 = [Qry [Tst (Some fn_and)
                              (Nested [Some [Qry [Tst (Some fn_gt) (Raw (num_ 75)) false]
                                                 None];
                                       Some [Qry [Tst (Some fn_lt) (Raw (num_ 125)) false]
                                                 None]])
                              true]
                         (Some "a.b")]
      /\ forall (get : value -> string -> value) (r : value),
           test get f1 r
           = (a <- c_gt (element get r (Some "a.b")) (num_ 75) ;;
              b <- c_lt (element get r (Some "a.b")) (num_ 125) ;;
              Ret (a && b))
           /\ test get f2 r = test get f1 r.
Proof.
  split; [reflexivity | apply implicit_and; reflexivity].
Defined.

(** The deep path scenario of the spec. *)
Example deep_path_scenario :
  (f <- compile (VObj [("a.b", VObj [("$gt", num_ 75); ("$lt", num_ 125)])]) ;;
   test Path.deep_get f (VObj [("a", VObj [("b", num_ 100)])])) = Ret true
  /\ (f <- compile (VObj [("a.b", VObj [("$gt", num_ 75); ("$lt", num_ 125)])]) ;;
      test Path.deep_get f (VObj [("a", VObj [("b", num_ 50)])])) = Ret false.
Proof. split; reflexivity. Qed.

(** ** Ordering comparators on an absent subject *)

Lemma relational_absent (b p : value) :
  JS.to_primitive b = Ret p -> JS.relational VUndef b = Ret None.
Proof.
  intro H. unfold JS.relational. cbn [JS.to_primitive bind]. rewrite H.
  cbn [bind]. reflexivity.
Qed.

(** Whatever the argument, the answer on an absent subject is not true. *)
Lemma never_true_on_absent (b : value) :
  c_gt VUndef b <> Ret true /\ c_gte VUndef b <> Ret true
  /\ c_lt VUndef b <> Ret true /\ c_lte VUndef b <> Ret true.
Proof.
  unfold c_gt, c_gte, c_lt, c_lte, JS.relational. cbn [JS.to_primitive bind].
  destruct (JS.to_primitive b); cbn; repeat split; discriminate.
Qed.

(** C10, as the code has it.  On the absent subject [undefined] each of
    [$gt], [$gte], [$lt] and [$lte] answers false for every argument [b]
    that converts to a primitive value; so a clause whose path resolves
    to no value in a record makes [test] false on that record. *)
Theorem absent_subject (b p : value) :
  JS.to_primitive b = Ret p ->
  c_gt VUndef b = Ret false /\ c_gte VUndef b = Ret false
  /\ c_lt VUndef b = Ret false /\ c_lte VUndef b = Ret false
  /\ forall (get : value -> string -> value) (field op : string) (r : value),
       dollar field = false ->
       element get r (Some field) = VUndef ->
       In op ["$gt"; "$gte"; "$lt"; "$lte"] ->
       exists f, compile (VObj [(field, VObj [(op, b)])]) = Ret f
                 /\ test get f r = Ret false.
Proof.
  intro H.
  assert (Hc : c_gt VUndef b = Ret false /\ c_gte VUndef b = Ret false
               /\ c_lt VUndef b = Ret false /\ c_lte VUndef b = Ret false).
  { unfold c_gt, c_gte, c_lt, c_lte. rewrite (relational_absent b p H).
    repeat split. }
  destruct Hc as (Hgt & Hgte & Hlt & Hlte). repeat split; try assumption.
  intros get field op r Hd He Hop.
  assert (Hf : exists fn, comparators op = Some fn /\ proto_key op = false
                          /\ TRAVERSABLE op = false /\ arity fn = 2
                          /\ call fn [VUndef; b] = Ret false).
  { cbn [In] in Hop. destruct Hop as [<- | [<- | [<- | [<- | []]]]];
      eexists; (split; [reflexivity|]); repeat split; assumption. }
  destruct Hf as (fn & Hfn & Hp & Ht & Ha & Hcall).
  unfold compile.
  rewrite (parseQuery_field _ field (VObj [(op, b)])
             [Tst (Some fn) (Raw b) false] Hd eq_refl).
  - cbn [bind]. eexists. split; [reflexivity|].
    unfold test, testFilter. cbn [stack foldM]. rewrite test_clause_eq, He.
    unfold _testFilter. cbn [foldM argument apply_fn bind].
    rewrite Ha. cbn [Nat.eqb Nat.ltb Nat.leb]. rewrite Hcall. reflexivity.
  - cbn [depth map list_max fold_right snd Nat.max].
    rewrite parseFilter_plain by (repeat constructor; assumption).
    cbn [map fst snd]. rewrite Hfn. reflexivity.
Qed.

Lemma absent_subject_witness :
  JS.to_primitive (num_ 75) = Ret (num_ 75)
  /\ (c_gt VUndef (num_ 75) = Ret false /\ c_gte VUndef (num_ 75) = Ret false
      /\ c_lt VUndef (num_ 75) = Ret false /\ c_lte VUndef (num_ 75) = Ret false
      /\ forall (get : value -> string -> value) (field op : string) (r : value),
           dollar field = false ->
           element get r (Some field) = VUndef ->
           In op ["$gt"; "$gte"; "$lt"; "$lte"] ->
           exists f, compile (VObj [(field, VObj [(op, num_ 75)])]) = Ret f
                     /\ test get f r = Ret false).
Proof.
  split; [reflexivity | apply (absent_subject (num_ 75) (num_ 75)); reflexivity].
Defined.

(** A record without the field, under the lookup of the examples. *)
Example missing_field_fails :
  element Path.deep_get (VObj [("a", VObj [])]) (Some "a.b") = VUndef
  /\ (f <- compile (VObj [("a.b", VObj [("$gt", num_ 75); ("$lt", num_ 125)])]) ;;
      test Path.deep_get f (VObj [("a", VObj [])])) = Ret false.
Proof. split; reflexivity. Qed.

(** An argument that shadows [toString] with a value that is no function
    cannot be converted: [a > b] asks [b] for a primitive, [valueOf]
    answers with the object itself, [toString] is not callable, and the
    comparison throws ("Cannot convert object to primitive value")
    instead of answering false. *)
Lemma absent_subject_throws :
  c_gt VUndef (VObj [("toString", num_ 1)]) = Throw TypeError.
Proof. reflexivity. Qed.

(** ** The recursion bound of [compile] *)

Lemma mapM_In {A B : Type} (f : A -> outcome B) (xs : list A) (ys : list B) (y : B) :
  mapM f xs = Ret ys -> In y ys -> exists x, In x xs /\ f x = Ret y.
Proof.
  revert ys. induction xs as [| x xs IH]; cbn; intros ys H Hy.
  - injection H as <-. destruct Hy.
  - destruct (f x) as [b | |] eqn:Hb; try discriminate. cbn in H.
    destruct (mapM f xs) as [bs | |]; try discriminate. cbn in H.
    injection H as <-. destruct Hy as [<- | Hy].
    + exists x. split; [left; reflexivity | exact Hb].
    + destruct (IH bs eq_refl Hy) as (x' & Hx & Hfx).
      exists x'. split; [right; exact Hx | exact Hfx].
Qed.

Lemma list_max_In {A : Type} (f : A -> nat) (xs : list A) (x : A) :
  In x xs -> f x <= list_max (map f xs).
Proof.
  unfold list_max. induction xs as [| y xs IH]; cbn [In map fold_right]; [tauto|].
  intros [-> | H]; [lia | specialize (IH H); lia].
Qed.

Lemma own_In (k : string) (props : list (string * value)) (v : value) :
  JS.own k props = Some v -> In (k, v) props.
Proof.
  induction props as [| [k' v'] props IH]; cbn; [discriminate|].
  destruct (String.eqb_spec k k') as [-> | _].
  - intro H. injection H as ->. left. reflexivity.
  - intro H. right. apply IH, H.
Qed.

Lemma indexed_In (i : nat) (xs : list value) (k : string) (v : value) :
  In (k, v) (JS.indexed i xs) -> In v xs.
Proof.
  revert i. induction xs as [| x xs IH]; intro i; cbn; [tauto|].
  intros [H | H]; [injection H as _ ->; left; reflexivity | right; eauto].
Qed.

(** What a [for-in] visits is a literal or lies deeper in the value. *)
Lemma for_in_depth (q : value) (k : string) (v : value) :
  In (k, v) (JS.for_in q) -> literal v = true \/ depth v < depth q.
Proof.
  destruct q as [| | b | n | s | elems | props]; cbn [JS.for_in];
    try (intros []).
  - intro H. left. eapply chars_literal, indexed_In, H.
  - intro H. right. apply indexed_In in H. cbn [depth].
    pose proof (list_max_In depth elems v H). lia.
  - intro H. right. cbn [depth].
    pose proof (list_max_In (fun kv => depth (snd kv)) props (k, v) H) as Hm.
    cbn [snd] in Hm. lia.
Qed.

(** So is what an index loop reads. *)
Lemma elements_depth (x : value) (ps : list value) (p : value) :
  JS.elements x = Ret ps -> In p ps -> literal p = true \/ depth p < depth x.
Proof.
  destruct x as [| | b | n | s | elems | props].
  - discriminate.
  - discriminate.
  - cbn. intro H. injection H as <-. intros [].
  - cbn. intro H. injection H as <-. intros [].
  - unfold JS.elements. cbn [JS.length bind].
    unfold JS.to_number. cbn [JS.to_primitive JS.prim_to_number bind].
    rewrite Nat2Z.id.
    change (JS.at_index (VStr s)) with (fun i => @Ret value (nth i (JS.chars s) VUndef)).
    rewrite mapM_Ret. intro H. injection H as <-.
    rewrite <- chars_length.
    rewrite map_nth_seq0. intro H. left. eapply chars_literal, H.
  - rewrite elements_VArr. intro H. injection H as <-. intro H. right.
    cbn [depth]. pose proof (list_max_In depth elems p H). lia.
  - unfold JS.elements. cbn [JS.length bind].
    destruct (JS.to_number _) as [[| z] | |]; cbn [bind]; try discriminate.
    + intro H. injection H as <-. intros [].
    + intros H Hp. destruct (mapM_In _ _ _ _ H Hp) as (i & _ & Hi).
      cbn [JS.at_index] in Hi. injection Hi as <-. right.
      destruct (JS.own (JS.dec i) props) as [v |] eqn:Ho; cbn [depth]; [|lia].
      apply own_In in Ho.
      pose proof (list_max_In (fun kv => depth (snd kv)) props _ Ho) as Hm.
      cbn [snd] in Hm. lia.
Qed.

Lemma fuel_stable (m : nat) :
  (forall q n, depth q + 2 <= m -> m <= n -> parseQuery n q = parseQuery m q)
  /\ (forall q n, depth q + 1 <= m -> m <= n -> parseFilter n q = parseFilter m q).
Proof.
  induction m as [| m [IHq IHf]]; [split; intros; lia|].
  split; intros q [| n] Hd Hn; try lia; cbn [parseQuery parseFilter].
  - apply foldM_ext. intros t [cmd params] Hin. unfold parse_clause.
    destruct (dollar cmd).
    + rewrite (IHf q n) by lia. reflexivity.
    + destruct (literal params) eqn:Hl.
      * destruct m as [| m]; [lia|]. destruct n as [| n]; [lia|].
        rewrite !parseFilter_plain by (repeat constructor). reflexivity.
      * destruct (for_in_depth q cmd params Hin) as [H | H]; [congruence|].
        rewrite (IHf params n) by lia. reflexivity.
  - f_equal. apply foldM_ext. intros [stack nq] [op params] Hin. unfold parse_test.
    destruct (traversable op); [|reflexivity].
    destruct (JS.elements params) as [ps | |] eqn:Hps; cbn [bind]; try reflexivity.
    f_equal. apply foldM_ext. intros [[tr nq1] st] p Hp. unfold parse_element.
    destruct (literal p) eqn:Hl; [reflexivity|].
    destruct (elements_depth params ps p Hps Hp) as [H | H]; [congruence|].
    destruct (for_in_depth q op params Hin) as [H' | H'].
    + apply literal_depth in H'. lia.
    + rewrite (IHq p n) by lia. reflexivity.
Qed.

(** More recursion than [compile] allows changes nothing. *)
Lemma parseQuery_fuel (q : value) (n : nat) :
  S (S (depth q)) <= n -> parseQuery n q = parseQuery (S (S (depth q))) q.
Proof. intro H. apply (proj1 (fuel_stable (S (S (depth q))))); lia. Qed.

(** ** Scenarios of the test suite *)

Example single_comparator :
  (f <- compile (VObj [("$lt", num_ 10)]) ;; test Path.deep_get f (num_ 8)) = Ret true
  /\ (f <- compile (VObj [("$lt", num_ 10)]) ;; test Path.deep_get f (num_ 11)) = Ret false.
Proof. split; reflexivity. Qed.

Example nested_comparators :
  (f <- compile (VObj [("$and", VArr [VObj [("$size", num_ 3)];
                                      VObj [("$all", VArr [num_ 1; num_ 2])]])]) ;;
   test Path.deep_get f (VArr [num_ 0; num_ 1; num_ 2])) = Ret true
  /\ (f <- compile (VObj [("$and", VArr [VObj [("$size", num_ 3)];
                                         VObj [("$all", VArr [num_ 1; num_ 2])]])]) ;;
      test Path.deep_get f (VArr [num_ 0; num_ 1; num_ 2; num_ 3])) = Ret false.
Proof. split; reflexivity. Qed.

Example multiple_nested :
  (f <- compile (VObj [("test", VStr "hello");
                       ("world", VObj [("$in", VArr [VStr "universe"])])]) ;;
   test Path.deep_get f (VObj [("test", VStr "hello"); ("world", VStr "universe")]))
  = Ret true
  /\ (f <- compile (VObj [("test", VStr "hello");
                          ("world", VObj [("$in", VArr [VStr "universe"])])]) ;;
      test Path.deep_get f (VObj [("test", VStr "hello"); ("world", VStr "galaxy")]))
     = Ret false.
Proof. split; reflexivity. Qed.

Example deep_index_path :
  (f <- compile (VObj [("d[0].e", VObj [("$eq", VStr "universe")])]) ;;
   test Path.deep_get f
        (VObj [("d", VArr [VObj [("e", VStr "universe")]; VObj [("e", VStr "galaxy")]])]))
  = Ret true.
Proof. reflexivity. Qed.

(** * Further properties of the comparators *)

(** ** The logical comparators *)

Lemma and_loop (xs : list value) (acc : bool) :
  fold_left (fun res fn => if negb (JS.truthy fn) then false else res) xs acc
  = acc && forallb JS.truthy xs.
Proof.
  revert acc. induction xs as [| x xs IH]; intro acc; cbn [fold_left forallb].
  - rewrite andb_true_r. reflexivity.
  - rewrite IH. destruct (JS.truthy x), acc; reflexivity.
Qed.

Lemma or_loop (xs : list value) (acc : bool) :
  fold_left (fun res fn => if JS.truthy fn then true else res) xs acc
  = acc || existsb JS.truthy xs.
Proof.
  revert acc. induction xs as [| x xs IH]; intro acc; cbn [fold_left existsb].
  - rewrite orb_false_r. reflexivity.
  - rewrite IH. destruct (JS.truthy x), acc; reflexivity.
Qed.

Lemma nor_loop (xs : list value) (acc : bool) :
  fold_left (fun res fn => if JS.truthy fn then false else res) xs acc
  = acc && negb (existsb JS.truthy xs).
Proof.
  revert acc. induction xs as [| x xs IH]; intro acc; cbn [fold_left existsb].
  - rewrite andb_true_r. reflexivity.
  - rewrite IH. destruct (JS.truthy x), acc; reflexivity.
Qed.

(** X1.  On an array, [$and] is true when every element is truthy, [$or]
    when some element is, [$nor] when none is; so [$nor] is the negation
    of [$or], and on the empty array [$and] and [$nor] are true and [$or]
    is false. *)
Theorem logical_comparators (xs : list value) :
  c_and (VArr xs) = Ret (forallb JS.truthy xs)
  /\ c_or (VArr xs) = Ret (existsb JS.truthy xs)
  /\ c_nor (VArr xs) = Ret (negb (existsb JS.truthy xs)).
Proof.
  unfold c_and, c_or, c_nor. rewrite elements_VArr. cbn [bind].
  rewrite and_loop, or_loop, nor_loop. repeat split.
Qed.

(** ** Membership *)





(** X4.  [$all] on a subject that has no [indexOf] throws as soon as [b]
    has an element to look for, and [$in] and [$nin] throw on every
    argument [b] that has no [indexOf]: none of them answers false. *)
Theorem indexOf_missing (a b x : value) (xs : list value) :
  no_indexOf a = true ->
  c_all a (VArr (x :: xs)) = Throw TypeError
  /\ c_in b a = Throw TypeError
  /\ c_nin b a = Throw TypeError.
Proof.
  intro H. unfold c_all, c_in, c_nin. rewrite elements_VArr. cbn [bind].
  destruct a; try discriminate; repeat split.
Qed.

Lemma indexOf_missing_witness :
  no_indexOf VUndef = true
  /\ (c_all VUndef (VArr [num_ 1; num_ 2]) = Throw TypeError
      /\ c_in (num_ 1) VUndef = Throw TypeError
      /\ c_nin (num_ 1) VUndef = Throw TypeError).
Proof.
  split; [reflexivity | apply (indexOf_missing VUndef (num_ 1) (num_ 1) [num_ 2]); reflexivity].
Defined.

(** ** Ordering *)

(** X5.  On integers the four ordering comparators are the four order
    relations; against NaN all four are false, so [$gte] is not the
    negation of [$lt]; two strings compare by their code units. *)
Theorem ordering_comparators (a b : Z) :
  (c_lt (num_ a) (num_ b) = Ret (Z.ltb a b)
   /\ c_lte (num_ a) (num_ b) = Ret (Z.leb a b)
   /\ c_gt (num_ a) (num_ b) = Ret (Z.gtb a b)
   /\ c_gte (num_ a) (num_ b) = Ret (Z.geb a b))
  /\ (forall n : num,
        c_lt (VNum NaN) (VNum n) = Ret false /\ c_lte (VNum NaN) (VNum n) = Ret false
        /\ c_gt (VNum NaN) (VNum n) = Ret false /\ c_gte (VNum NaN) (VNum n) = Ret false
        /\ c_lt (VNum n) (VNum NaN) = Ret false /\ c_lte (VNum n) (VNum NaN) = Ret false
        /\ c_gt (VNum n) (VNum NaN) = Ret false /\ c_gte (VNum n) (VNum NaN) = Ret false)
  /\ (forall s t : string,
        c_lt (VStr s) (VStr t) = Ret (String.ltb s t)
        /\ c_lte (VStr s) (VStr t) = Ret (String.leb s t)).
Proof.
  split; [|split].
  - unfold c_lt, c_lte, c_gt, c_gte, Z.ltb, Z.leb, Z.gtb, Z.geb.
    cbn [num_ JS.relational JS.to_primitive JS.prim_to_number bind].
    destruct (Z.compare a b); repeat split.
  - intros [| z]; repeat split.
  - intros s t. unfold c_lt, c_lte, String.ltb, String.leb.
    cbn [JS.relational JS.to_primitive bind].
    destruct (String.compare s t); split; reflexivity.
Qed.

(** ** Remainders *)

(** X6.  On integers [$mod (a, [m, r])] compares the remainder of [a] by
    [m], which has the sign of [a], with [r]; a divisor of 0 gives false;
    an argument [b] that is [null] or [undefined] makes the read of
    [b[0]] throw. *)
Theorem mod_on_integers (a m r : Z) :
  c_mod (num_ a) (VArr [num_ m; num_ r])
  = Ret (if Z.eqb m 0 then false else Z.eqb (Z.rem a m) r)
  /\ (forall x : value, c_mod x VNull = Throw TypeError
                        /\ c_mod x VUndef = Throw TypeError).
Proof.
  split; [|intro x; split; reflexivity].
  unfold c_mod, num_. cbn [JS.at_index nth bind].
  unfold JS.rem, JS.to_number. cbn [JS.to_primitive JS.prim_to_number bind].
  destruct (Z.eqb m 0); reflexivity.
Qed.

(** ** Existence *)

(** X7.  [$exists] compares the truthiness of the subject with the
    boolean argument: under a field path [k], [{ k: { $exists: b } }]
    holds of a record when the value found under [k] is truthy or not, as
    [b] says, so a field holding 0, the empty string, [false] or [null]
    counts as missing. *)
Theorem exists_is_truthiness (get : value -> string -> value) (k : string)
    (b : bool) (r : value) :
  dollar k = false ->
  exists f,
    compile (VObj [(k, VObj [("$exists", VBool b)])]) = Ret f
    /\ test get f r = Ret (Bool.eqb (JS.truthy (element get r (Some k))) b).
Proof.
  intro Hd. unfold compile.
  rewrite (parseQuery_field _ k (VObj [("$exists", VBool b)])
             [Tst (Some fn_exists) (Raw (VBool b)) false] Hd eq_refl)
    by (apply parseFilter_plain; repeat constructor).
  cbn [bind]. eexists. split; [reflexivity|].
  unfold test, testFilter. cbn [stack foldM]. rewrite test_clause_eq.
  generalize (element get r (Some k)) as el. intro el.
  unfold _testFilter. cbn [foldM argument apply_fn arity Nat.eqb Nat.ltb Nat.leb
                             call nth bind].
  unfold c_exists. destruct (JS.truthy el), b; reflexivity.
Qed.

Lemma exists_is_truthiness_witness :
  dollar "a" = false
  /\ exists f,
      compile (VObj [("a", VObj [("$exists", VBool true)])]) = Ret f
      /\ test Path.deep_get f (VObj [("a", num_ 0)])
         = Ret (Bool.eqb (JS.truthy (element Path.deep_get (VObj [("a", num_ 0)])
                                             (Some "a"))) true).
Proof.
  split; [reflexivity | apply exists_is_truthiness; reflexivity].
Defined.

(** ** Sizes *)

(** X8.  On an array or a string [$size] with a number [z] is true when
    [z] is not 0 and is the length; with [z = 0] it is false on every
    subject. *)
Theorem size_on_collections (z : Z) :
  (forall xs : list value,
      c_size (VArr xs) (num_ z)
      = Ret (negb (Z.eqb z 0) && Z.eqb (Z.of_nat (List.length xs)) z))
  /\ (forall s : string,
        c_size (VStr s) (num_ z)
        = Ret (negb (Z.eqb z 0) && Z.eqb (Z.of_nat (String.length s)) z))
  /\ (forall a : value, c_size a (num_ 0) = Ret false).
Proof.
  split; [|split].
  - intro xs. unfold c_size. cbn [JS.truthy JS.length bind num_].
    destruct (Z.eqb_spec (Z.of_nat (List.length xs)) 0) as [E | E]; cbn [negb].
    + rewrite E. destruct (Z.eqb_spec z 0) as [-> | Hz]; cbn [negb andb]; [reflexivity|].
      destruct (Z.eqb_spec 0 z); [congruence | reflexivity].
    + destruct (Z.eqb z 0); reflexivity.
  - intro s. unfold c_size. cbn [JS.truthy JS.length bind num_].
    destruct s as [| c s]; cbn [String.eqb negb].
    + cbn [String.length Z.of_nat].
      destruct (Z.eqb_spec z 0) as [-> | Hz]; cbn [negb andb]; [reflexivity|].
      destruct (Z.eqb_spec 0 z); [congruence | reflexivity].
    + destruct (Z.eqb_spec (Z.of_nat (String.length (String c s))) 0) as [E | E];
        [cbn in E; lia|]. cbn [negb].
      destruct (Z.eqb z 0); reflexivity.
  - intro a. unfold c_size.
    destruct (JS.truthy a) eqn:Ht; [|reflexivity].
    destruct (JS.length a) as [len | |] eqn:Hl; cbn [bind].
    + destruct (JS.truthy len); reflexivity.
    + destruct a; cbn in Hl, Ht; discriminate.
    + destruct a; cbn in Hl; discriminate.
Qed.

(** ** Strict equality *)

(** X9.  [$eq] does not coerce: two values whose [typeof] differs are
    never equal, so the number 1 is not the string ["1"], and [$ne] is
    true of them. *)
Theorem eq_is_strict (a b : value) :
  JS.typeof a <> JS.typeof b ->
  c_eq a b = Ret false /\ c_ne a b = Ret true.
Proof.
  intro H. unfold c_ne, c_eq.
  destruct a, b; cbn in H |- *; try (split; reflexivity); congruence.
Qed.

Lemma eq_is_strict_witness :
  JS.typeof (num_ 1) <> JS.typeof (VStr "1")
  /\ (c_eq (num_ 1) (VStr "1") = Ret false /\ c_ne (num_ 1) (VStr "1") = Ret true).
Proof.
  split; [discriminate | apply eq_is_strict; discriminate].
Defined.

(** * Further properties of the evaluator and the compiler *)

(** ** Stacks are conjunctions *)

Section AndLoops.

Context {A : Type}.
Variable g : A -> outcome bool.

Lemma and_fold (xs : list A) (init : bool) :
  foldM (fun acc x => r <- g x ;; Ret (acc && r)) xs init
  = (a <- foldM (fun acc x => r <- g x ;; Ret (acc && r)) xs true ;; Ret (init && a)).
Proof.
  revert init. induction xs as [| x xs IH]; intro init; cbn [foldM bind].
  - rewrite andb_true_r. reflexivity.
  - destruct (g x) as [r | |]; cbn [bind andb]; try reflexivity.
    rewrite (IH (init && r)), (IH r).
    destruct (foldM _ xs true) as [a | |]; cbn [bind]; try reflexivity.
    rewrite andb_assoc. reflexivity.
Qed.

Lemma and_fold_app (xs ys : list A) :
  foldM (fun acc x => r <- g x ;; Ret (acc && r)) (xs ++ ys) true
  = (a <- foldM (fun acc x => r <- g x ;; Ret (acc && r)) xs true ;;
     b <- foldM (fun acc x => r <- g x ;; Ret (acc && r)) ys true ;;
     Ret (a && b)).
Proof.
  generalize true at 1 2 as init.
  induction xs as [| x xs IH]; intro init; cbn [app foldM bind].
  - apply and_fold.
  - destruct (g x) as [r | |]; cbn [bind]; try reflexivity. apply IH.
Qed.

(** The same computation run once for each element of a non-empty list
    answers as one run. *)
Lemma and_fold_const {B : Type} (c : outcome bool) (ys : list B) (y : B) :
  foldM (fun acc (_ : B) => r <- c ;; Ret (acc && r)) (y :: ys) true = c.
Proof.
  cbn [foldM]. destruct c as [r | |]; cbn [bind andb]; try reflexivity.
  induction ys as [| y' ys IH]; cbn [foldM bind]; [reflexivity|].
  rewrite andb_diag. exact IH.
Qed.

End AndLoops.

Lemma testFilter_and (get : value -> string -> value) (val : value) (s : list qry) :
  testFilter get val s
  = foldM (fun acc c => r <- test_clause get val c ;; Ret (acc && r)) s true.
Proof.
  unfold testFilter. apply foldM_ext. intros acc c _.
  destruct (test_clause get val c) as [[] | |]; cbn [bind negb]; try reflexivity.
  all: f_equal; destruct acc; reflexivity.
Qed.

Lemma _testFilter_and (get : value -> string -> value) (val : value) (s : list tst) :
  _testFilter get val s
  = foldM (fun acc t => r <- test_node get val t ;; Ret (acc && r)) s true.
Proof.
  unfold _testFilter, test_node. apply foldM_ext. intros acc [fn ps tr] _.
  cbn [tst_fn tst_params tst_traverse].
  destruct (argument get val ps tr) as [arg | |]; cbn [bind]; try reflexivity.
  unfold apply_fn. destruct fn as [f |]; [|reflexivity].
  destruct (Nat.eqb (arity f) 1).
  - destruct (call f [arg]) as [[] | |]; cbn [bind negb]; try reflexivity;
      f_equal; destruct acc; reflexivity.
  - destruct (Nat.ltb 1 (arity f)).
    + destruct (call f [val; arg]) as [[] | |]; cbn [bind negb]; try reflexivity;
        f_equal; destruct acc; reflexivity.
    + cbn [bind]. rewrite andb_true_r. reflexivity.
Qed.

(** X10.  A stack is the conjunction of its entries, all of them
    evaluated: [testFilter] on [s1 ++ s2] runs [s1], then [s2], and
    answers the [&&] of the two, and so does [_testFilter]; a part that
    throws makes the whole throw, even after a part that answered
    false. *)
Theorem stacks_are_conjunctions (get : value -> string -> value) (val : value) :
  (forall s1 s2 : list qry,
      testFilter get val (s1 ++ s2)
      = (a <- testFilter get val s1 ;; b <- testFilter get val s2 ;; Ret (a && b)))
  /\ (forall t1 t2 : list tst,
        _testFilter get val (t1 ++ t2)
        = (a <- _testFilter get val t1 ;; b <- _testFilter get val t2 ;; Ret (a && b))).
Proof.
  split; intros.
  - rewrite !testFilter_and. apply and_fold_app.
  - rewrite !_testFilter_and. apply and_fold_app.
Qed.

(** ** Expressions over several fields *)

Lemma foldM_app {A S : Type} (body : S -> A -> outcome S) (xs ys : list A) (s : S) :
  foldM body (xs ++ ys) s = (s' <- foldM body xs s ;; foldM body ys s').
Proof.
  revert s. induction xs as [| x xs IH]; intro s; cbn [app foldM bind]; [reflexivity|].
  destruct (body s x); cbn [bind]; auto.
Qed.

(** Under a key that is no operator the clause does not depend on the
    enclosing query. *)
Lemma parse_clause_field (pf : value -> outcome (list tst)) (q q' : value)
    (acc : list qry) (kv : string * value) :
  dollar (fst kv) = false -> parse_clause pf q acc kv = parse_clause pf q' acc kv.
Proof.
  destruct kv as [cmd params]. cbn [fst]. intro H. unfold parse_clause.
  rewrite H. reflexivity.
Qed.

Lemma parse_clause_acc (pf : value -> outcome (list tst)) (q : value)
    (ps : list (string * value)) (acc : list qry) :
  foldM (parse_clause pf q) ps acc
  = (s <- foldM (parse_clause pf q) ps [] ;; Ret (acc ++ s)).
Proof.
  revert acc. induction ps as [| [cmd params] ps IH]; intro acc; cbn [foldM bind].
  - rewrite app_nil_r. reflexivity.
  - unfold parse_clause at 1 3.
    destruct (if dollar cmd then _ else _) as [c | |]; cbn [bind]; try reflexivity.
    rewrite (IH (acc ++ [c])), (IH ([] ++ [c])).
    destruct (foldM (parse_clause pf q) ps []) as [s | |]; cbn [bind]; try reflexivity.
    rewrite <- app_assoc. reflexivity.
Qed.

Lemma parseQuery_fields_app (n : nat) (ps1 ps2 : list (string * value)) :
  Forall (fun kv => dollar (fst kv) = false) ps1 ->
  Forall (fun kv => dollar (fst kv) = false) ps2 ->
  parseQuery (S n) (VObj (ps1 ++ ps2))
  = (s1 <- parseQuery (S n) (VObj ps1) ;;
     s2 <- parseQuery (S n) (VObj ps2) ;;
     Ret (s1 ++ s2)).
Proof.
  intros H1 H2. cbn [parseQuery JS.for_in]. rewrite foldM_app.
  rewrite (foldM_ext _ (parse_clause (parseFilter n) (VObj ps1)) ps1).
  2:{ intros t kv Hin. apply parse_clause_field.
      exact (proj1 (Forall_forall _ _) H1 kv Hin). }
  destruct (foldM _ ps1 []) as [s1 | |]; cbn [bind]; try reflexivity.
  rewrite parse_clause_acc.
  rewrite (foldM_ext _ (parse_clause (parseFilter n) (VObj ps2)) ps2).
  2:{ intros t kv Hin. apply parse_clause_field.
      exact (proj1 (Forall_forall _ _) H2 kv Hin). }
  reflexivity.
Qed.

Lemma depth_obj_app_l (ps1 ps2 : list (string * value)) :
  depth (VObj ps1) <= depth (VObj (ps1 ++ ps2)).
Proof. cbn [depth]. rewrite map_app, list_max_app. lia. Qed.

Lemma depth_obj_app_r (ps1 ps2 : list (string * value)) :
  depth (VObj ps2) <= depth (VObj (ps1 ++ ps2)).
Proof. cbn [depth]. rewrite map_app, list_max_app. lia. Qed.

(** X11.  Two expressions whose keys are all field paths, and whose
    properties, those of the first followed by those of the second, are
    the properties of one object as [for-in] enumerates it (distinct
    keys, numerals first and ascending): that object compiles to the two
    stacks one after the other, and the filter answers the [&&] of the
    two filters on every record. *)
Theorem fields_are_conjoined (ps1 ps2 : list (string * value)) (f1 f2 : Filter) :
  well_formed (VObj (ps1 ++ ps2)) = true ->
  Forall (fun kv => dollar (fst kv) = false) ps1 ->
  Forall (fun kv => dollar (fst kv) = false) ps2 ->
  compile (VObj ps1) = Ret f1 ->
  compile (VObj ps2) = Ret f2 ->
  exists f,
    compile (VObj (ps1 ++ ps2)) = Ret f
    /\ stack f = stack f1 ++ stack f2
    /\ forall (get : value -> string -> value) (r : value),
         test get f r = (a <- test get f1 r ;; b <- test get f2 r ;; Ret (a && b)).
Proof.
  intros _ H1 H2 C1 C2. unfold compile in *.
  rewrite parseQuery_fields_app by assumption.
  rewrite (parseQuery_fuel (VObj ps1))
    by (pose proof (depth_obj_app_l ps1 ps2); lia).
  rewrite (parseQuery_fuel (VObj ps2))
    by (pose proof (depth_obj_app_r ps1 ps2); lia).
  destruct (parseQuery _ (VObj ps1)) as [s1 | |]; cbn [bind] in C1; try discriminate.
  destruct (parseQuery _ (VObj ps2)) as [s2 | |]; cbn [bind] in C2; try discriminate.
  injection C1 as <-. injection C2 as <-. cbn [bind]. eexists.
  split; [reflexivity|]. split; [reflexivity|].
  intros get r. unfold test. cbn [stack].
  rewrite !testFilter_and. apply and_fold_app.
Qed.

Lemma fields_are_conjoined_witness :
  (well_formed (VObj ([("test", VStr "hello")]
                      ++ [("world", VObj [("$in", VArr [VStr "universe"])])])) = true
   /\ Forall (fun kv => dollar (fst kv) = false) [("test", VStr "hello")]
   /\ Forall (fun kv => dollar (fst kv) = false)
             [("world", VObj [("$in", VArr [VStr "universe"])])]
   /\ compile (VObj [("test", VStr "hello")])
      = Ret (mkFilter (VObj [("test", VStr "hello")])
                      [Qry [Tst (Some fn_eq) (Raw (VStr "hello")) false] (Some "test")])
   /\ compile (VObj [("world", VObj [("$in", VArr [VStr "universe"])])])
      = Ret (mkFilter (VObj [("world", VObj [("$in", VArr [VStr "universe"])])])
                      [Qry [Tst (Some fn_in) (Raw (VArr [VStr "universe"])) false]
                           (Some "world")]))
  /\ exists f,
      compile (VObj ([("test", VStr "hello")]
                     ++ [("world", VObj [("$in", VArr [VStr "universe"])])])) = Ret f
      /\ stack f
         = stack (mkFilter (VObj [("test", VStr "hello")])
                    [Qry [Tst (Some fn_eq) (Raw (VStr "hello")) false] (Some "test")])
           ++ stack (mkFilter (VObj [("world", VObj [("$in", VArr [VStr "universe"])])])
                       [Qry [Tst (Some fn_in) (Raw (VArr [VStr "universe"])) false]
                            (Some "world")])
      /\ forall (get : value -> string -> value) (r : value),
           test get f r
           = (a <- test get
                     (mkFilter (VObj [("test", VStr "hello")])
                        [Qry [Tst (Some fn_eq) (Raw (VStr "hello")) false] (Some "test")])
                     r ;;
              b <- test get
                     (mkFilter (VObj [("world", VObj [("$in", VArr [VStr "universe"])])])
                        [Qry [Tst (Some fn_in) (Raw (VArr [VStr "universe"])) false]
                             (Some "world")])
                     r ;;
              Ret (a && b)).
Proof.
  split; [repeat split; repeat constructor |].
  apply fields_are_conjoined; [reflexivity | repeat constructor ..].
Defined.

(** ** Operator keys at the root, again *)

(** X12.  An expression whose keys are all operators gets one clause per
    key, each with the whole condition group, so the group is evaluated
    once for every key; the answer of [test] is that of one evaluation of
    the group on the record. *)
Theorem root_group_once (props : list (string * value)) (f : Filter) :
  props <> [] ->
  Forall (fun kv => dollar (fst kv) = true) props ->
  compile (VObj props) = Ret f ->
  exists t,
    parseFilter (S (depth (VObj props))) (VObj props) = Ret t
    /\ stack f = map (fun _ => Qry t None) props
    /\ forall (get : value -> string -> value) (r : value),
         test get f r = _testFilter get r t.
Proof.
  intros Hne Hd Hc. unfold compile in Hc.
  destruct props as [| [cmd params] props]; [congruence|].
  destruct (parseFilter (S (depth (VObj ((cmd, params) :: props))))
                        (VObj ((cmd, params) :: props))) as [t | e |] eqn:Ht.
  - rewrite (operator_keys_no_path _ _ t Hd Ht) in Hc. cbn [bind] in Hc.
    injection Hc as <-. exists t. split; [reflexivity|]. split; [reflexivity|].
    intros get r. unfold test. cbn [stack]. rewrite testFilter_and.
    cbn [map]. rewrite (foldM_ext _ (fun acc (_ : qry) =>
                                       x <- _testFilter get r t ;; Ret (acc && x))).
    + apply (and_fold_const (_testFilter get r t)).
    + intros acc c Hin.
      assert (Hq : c = Qry t None).
      { destruct Hin as [<- | Hin]; [reflexivity|].
        apply in_map_iff in Hin. destruct Hin as (x & <- & _). reflexivity. }
      subst c. rewrite test_clause_eq. reflexivity.
  - exfalso. cbn [parseQuery JS.for_in foldM] in Hc. unfold parse_clause at 1 in Hc.
    inversion Hd as [| x l Hx Hl]; subst. cbn [fst] in Hx. rewrite Hx, Ht in Hc.
    discriminate.
  - exfalso. cbn [parseQuery JS.for_in foldM] in Hc. unfold parse_clause at 1 in Hc.
    inversion Hd as [| x l Hx Hl]; subst. cbn [fst] in Hx. rewrite Hx, Ht in Hc.
    discriminate.
Qed.

Lemma root_group_once_witness :
  ([("$lt", num_ 10); ("$gt", num_ 5)] <> []
   /\ Forall (fun kv => dollar (fst kv) = true) [("$lt", num_ 10); ("$gt", num_ 5)]
   /\ compile (VObj [("$lt", num_ 10); ("$gt", num_ 5)])
      = Ret (mkFilter (VObj [("$lt", num_ 10); ("$gt", num_ 5)])
               [Qry [Tst (Some fn_lt) (Raw (num_ 10)) false;
                     Tst (Some fn_gt) (Raw (num_ 5)) false] None;
                Qry [Tst (Some fn_lt) (Raw (num_ 10)) false;
                     Tst (Some fn_gt) (Raw (num_ 5)) false] None]))
  /\ exists t,
      parseFilter (S (depth (VObj [("$lt", num_ 10); ("$gt", num_ 5)])))
                  (VObj [("$lt", num_ 10); ("$gt", num_ 5)]) = Ret t
      /\ stack (mkFilter (VObj [("$lt", num_ 10); ("$gt", num_ 5)])
                  [Qry [Tst (Some fn_lt) (Raw (num_ 10)) false;
                        Tst (Some fn_gt) (Raw (num_ 5)) false] None;
                   Qry [Tst (Some fn_lt) (Raw (num_ 10)) false;
                        Tst (Some fn_gt) (Raw (num_ 5)) false] None])
         = map (fun _ => Qry t None) [("$lt", num_ 10); ("$gt", num_ 5)]
      /\ forall (get : value -> string -> value) (r : value),
           test get
             (mkFilter (VObj [("$lt", num_ 10); ("$gt", num_ 5)])
                [Qry [Tst (Some fn_lt) (Raw (num_ 10)) false;
                      Tst (Some fn_gt) (Raw (num_ 5)) false] None;
                 Qry [Tst (Some fn_lt) (Raw (num_ 10)) false;
                      Tst (Some fn_gt) (Raw (num_ 5)) false] None])
             r
           = _testFilter get r t.
Proof.
  split; [split; [discriminate | split; [repeat constructor | reflexivity]] |].
  apply root_group_once; [discriminate | repeat constructor | reflexivity].
Defined.

(** ** Logical operators *)

Lemma TRAVERSABLE_cases (op : string) :
  TRAVERSABLE op = true -> op = "$and" \/ op = "$or" \/ op = "$nor".
Proof.
  unfold TRAVERSABLE. intro H.
  apply orb_true_iff in H. destruct H as [H | H];
    [apply orb_true_iff in H; destruct H as [H | H]|];
    apply String.eqb_eq in H; auto.
Qed.

(** X13.  Compiling can throw: a logical operator whose argument is
    [null] or [undefined] makes [parseFilter] read [params.length] of it,
    at the root and under a field alike. *)
Theorem compile_throws (op : string) :
  TRAVERSABLE op = true ->
  compile (VObj [(op, VNull)]) = Throw TypeError
  /\ compile (VObj [(op, VUndef)]) = Throw TypeError
  /\ forall field : string,
       dollar field = false ->
       compile (VObj [(field, VObj [(op, VNull)])]) = Throw TypeError
       /\ compile (VObj [(field, VObj [(op, VUndef)])]) = Throw TypeError.
Proof.
  intro H.
  assert (Hf : forall n arg, JS.length arg = Throw TypeError ->
                 parseFilter (S n) (VObj [(op, arg)]) = Throw TypeError).
  { intros n arg Ha. cbn [parseFilter JS.for_in foldM]. unfold parse_test.
    destruct (TRAVERSABLE_cases op H) as [-> | [-> | ->]];
      cbn [proto_key existsb String.eqb Ascii.eqb Bool.eqb orb];
      unfold JS.elements; rewrite Ha; reflexivity. }
  assert (Hd : dollar op = true)
    by (destruct (TRAVERSABLE_cases op H) as [-> | [-> | ->]]; reflexivity).
  assert (Hq : forall arg, JS.length arg = Throw TypeError ->
                 compile (VObj [(op, arg)]) = Throw TypeError).
  { intros arg Ha. unfold compile. cbn [parseQuery JS.for_in foldM].
    unfold parse_clause. rewrite Hd. cbn [depth map list_max fold_right snd Nat.max].
    rewrite (Hf _ arg Ha). reflexivity. }
  split; [apply Hq; reflexivity|]. split; [apply Hq; reflexivity|].
  intros field Hfd.
  assert (Hg : forall arg, JS.length arg = Throw TypeError ->
                 compile (VObj [(field, VObj [(op, arg)])]) = Throw TypeError).
  { intros arg Ha. unfold compile. cbn [parseQuery JS.for_in foldM].
    unfold parse_clause. rewrite Hfd.
    change (literal (VObj [(op, arg)])) with false. cbn iota.
    cbn [depth map list_max fold_right snd Nat.max].
    rewrite (Hf _ arg Ha). reflexivity. }
  split; apply Hg; reflexivity.
Qed.

Lemma compile_throws_witness :
  TRAVERSABLE "$or" = true
  /\ (compile (VObj [("$or", VNull)]) = Throw TypeError
      /\ compile (VObj [("$or", VUndef)]) = Throw TypeError
      /\ forall field : string,
           dollar field = false ->
           compile (VObj [(field, VObj [("$or", VNull)])]) = Throw TypeError
           /\ compile (VObj [(field, VObj [("$or", VUndef)])]) = Throw TypeError).
Proof.
  split; [reflexivity | apply compile_throws; reflexivity].
Defined.

(** The loop over an array without literals compiles every element and
    pushes its stack. *)
Lemma parse_element_objects (pq : value -> outcome (list qry)) (args : list value)
    (qs : list (list qry)) (tr : bool) (nq : option (list qry))
    (st : list (option (list qry))) :
  existsb literal args = false ->
  mapM pq args = Ret qs ->
  exists nq', foldM (parse_element pq) args (tr, nq, st)
              = Ret (tr, nq', st ++ map Some qs).
Proof.
  revert qs tr nq st. induction args as [| a args IH]; intros qs tr nq st Hl Hm.
  - cbn in Hm. injection Hm as <-. exists nq. cbn. rewrite app_nil_r. reflexivity.
  - cbn [existsb] in Hl. apply orb_false_iff in Hl. destruct Hl as [Ha Hl].
    cbn [mapM] in Hm. destruct (pq a) as [q | |] eqn:Hq; cbn [bind] in Hm; try discriminate.
    destruct (mapM pq args) as [qs' | |] eqn:Hqs; cbn [bind] in Hm; try discriminate.
    injection Hm as <-.
    destruct (IH qs' tr (Some q) (st ++ [Some q]) Hl eq_refl) as (nq' & Hn).
    exists nq'. cbn [foldM]. unfold parse_element at 1. rewrite Ha, Hq. cbn [bind].
    rewrite Hn. cbn [map]. rewrite <- app_assoc. reflexivity.
Qed.

Lemma mapM_ext_In {A B : Type} (f g : A -> outcome B) (xs : list A) :
  (forall x, In x xs -> f x = g x) -> mapM f xs = mapM g xs.
Proof.
  induction xs as [| x xs IH]; intro H; cbn [mapM]; [reflexivity|].
  rewrite (H x) by (left; reflexivity). rewrite IH; [reflexivity|].
  intros y Hy. apply H. right. exact Hy.
Qed.

Lemma mapM_map {A B C : Type} (f : B -> outcome C) (h : A -> B) (xs : list A) :
  mapM f (map h xs) = mapM (fun x => f (h x)) xs.
Proof.
  induction xs as [| x xs IH]; cbn [map mapM]; [reflexivity|]. rewrite IH. reflexivity.
Qed.

Lemma mapM_Forall2 {A B : Type} (f : A -> outcome B) (xs : list A) (ys : list B) :
  Forall2 (fun x y => f x = Ret y) xs ys -> mapM f xs = Ret ys.
Proof.
  induction 1 as [| x y xs ys Hxy _ IH]; cbn [mapM]; [reflexivity|].
  rewrite Hxy, IH. reflexivity.
Qed.

Lemma forallb_truthy (bs : list bool) :
  forallb JS.truthy (map VBool bs) = forallb (fun b => b) bs.
Proof. induction bs as [| b bs IH]; cbn; [reflexivity | rewrite IH; reflexivity]. Qed.

Lemma existsb_truthy (bs : list bool) :
  existsb JS.truthy (map VBool bs) = existsb (fun b => b) bs.
Proof. induction bs as [| b bs IH]; cbn; [reflexivity | rewrite IH; reflexivity]. Qed.

Lemma connective_call (op : string) (f : fnref) (bs : list bool) :
  TRAVERSABLE op = true -> comparators op = Some f ->
  call f [VArr (map VBool bs)] = Ret (connective f bs).
Proof.
  pose proof (forallb_truthy bs) as Ha. pose proof (existsb_truthy bs) as He.
  intros Ht Hc.
  destruct (TRAVERSABLE_cases op Ht) as [-> | [-> | ->]]; injection Hc as <-;
    cbn [call nth connective]; unfold c_or, c_nor, c_and;
    rewrite elements_VArr; cbn [bind];
    rewrite ?and_loop, ?or_loop, ?nor_loop, ?Ha, ?He; reflexivity.
Qed.

(** What a logical operator over compiled expressions computes. *)
Lemma logical_core (op : string) (f : fnref) (args : list value) (fs : list Filter) :
  comparators op = Some f ->
  TRAVERSABLE op = true ->
  existsb literal args = false ->
  Forall2 (fun a fa => compile a = Ret fa) args fs ->
  exists F,
    compile (VObj [(op, VArr args)]) = Ret F
    /\ stack F = [Qry [Tst (Some f) (Nested (map (fun fa => Some (stack fa)) fs)) true]
                      None]
    /\ forall (get : value -> string -> value) (r : value),
         test get F r
         = (bs <- mapM (fun fa => test get fa r) fs ;; Ret (connective f bs)).
Proof.
  intros Hc Ht Hl Hfs.
  assert (Hd : dollar op = true /\ proto_key op = false)
    by (destruct (TRAVERSABLE_cases op Ht) as [-> | [-> | ->]]; split; reflexivity).
  destruct Hd as [Hd Hp].
  assert (Ha : arity f = 1).
  { destruct (TRAVERSABLE_arity op Ht) as (f' & Hf' & Ha). congruence. }
  set (lm := list_max (map depth args)).
  assert (Hm : mapM (parseQuery (S (S lm))) args = Ret (map stack fs)).
  { apply mapM_Forall2. clear Hl. subst lm.
    assert (Hall : forall a, In a args -> depth a <= list_max (map depth args))
      by (intros a; apply list_max_In).
    revert Hall. generalize (list_max (map depth args)) as m.
    induction Hfs as [| a fa args fs Hafa _ IH]; intros m Hall; cbn [map]; constructor.
    - rewrite parseQuery_fuel by (specialize (Hall a (or_introl eq_refl)); lia).
      unfold compile in Hafa.
      destruct (parseQuery _ a); cbn [bind] in Hafa; try discriminate.
      injection Hafa as <-. reflexivity.
    - apply IH. intros x Hx. apply Hall. right. exact Hx. }
  destruct (parse_element_objects _ args _ true None [] Hl Hm) as (nq' & Hloop).
  assert (Hq : parseQuery (S (S (depth (VObj [(op, VArr args)])))) (VObj [(op, VArr args)])
               = Ret [Qry [Tst (Some f) (Nested (map Some (map stack fs))) true] None]).
  { cbn [depth map list_max fold_right snd Nat.max]. fold (list_max (map depth args)).
    fold lm. cbn [parseQuery JS.for_in foldM]. unfold parse_clause. rewrite Hd.
    cbn [parseFilter JS.for_in foldM]. unfold parse_test.
    rewrite (resolve_own _ _ Hc), (traversable_own _ Ht).
    rewrite elements_VArr. cbn [bind]. rewrite Hloop. reflexivity. }
  unfold compile. rewrite Hq. cbn [bind]. eexists.
  split; [reflexivity|]. split; [cbn [stack]; rewrite map_map; reflexivity|].
  intros get r. unfold test. cbn [stack]. unfold testFilter at 1. cbn [foldM].
  rewrite test_clause_eq. cbn [element]. unfold _testFilter.
  cbn [foldM argument]. rewrite map_map, mapM_map. cbn [test_nested].
  destruct (mapM (fun fa => testFilter get r (stack fa)) fs) as [bs | |];
    cbn [bind]; try reflexivity.
  unfold apply_fn. rewrite Ha. cbn [Nat.eqb].
  rewrite (connective_call op f bs Ht Hc). cbn [bind].
  destruct (connective f bs); reflexivity.
Qed.

(** X14.  A logical operator over an array of expressions, none of them
    a literal and each compiling on its own, compiles to one traversing
    node holding the stacks of the expressions, in order; on a record it
    tests every expression against that same record and answers their
    conjunction for [$and], disjunction for [$or], negated disjunction
    for [$nor]. *)
Theorem logical_operator (op : string) (f : fnref) (args : list value)
    (fs : list Filter) :
  comparators op = Some f ->
  TRAVERSABLE op = true ->
  existsb literal args = false ->
  Forall2 (fun a fa => compile a = Ret fa) args fs ->
  exists F,
    compile (VObj [(op, VArr args)]) = Ret F
    /\ stack F = [Qry [Tst (Some f) (Nested (map (fun fa => Some (stack fa)) fs)) true]
                      None]
    /\ forall (get : value -> string -> value) (r : value),
         test get F r
         = (bs <- mapM (fun fa => test get fa r) fs ;; Ret (connective f bs)).
Proof. exact (logical_core op f args fs). Qed.

Lemma logical_operator_witness :
  (comparators "$or" = Some fn_or
   /\ TRAVERSABLE "$or" = true
   /\ existsb literal [VObj [("hello", VBool true)]; VObj [("universe", VBool true)]]
      = false
   /\ Forall2 (fun a fa => compile a = Ret fa)
              [VObj [("hello", VBool true)]; VObj [("universe", VBool true)]]
              [hello_filter; universe_filter])
  /\ exists F,
      compile (VObj [("$or", VArr [VObj [("hello", VBool true)];
                                   VObj [("universe", VBool true)]])]) = Ret F
      /\ stack F = [Qry [Tst (Some fn_or)
                             (Nested (map (fun fa => Some (stack fa))
                                          [hello_filter; universe_filter]))
                             true]
                        None]
      /\ forall (get : value -> string -> value) (r : value),
           test get F r
           = (bs <- mapM (fun fa => test get fa r) [hello_filter; universe_filter] ;;
              Ret (connective fn_or bs)).
Proof.
  split; [repeat split; repeat constructor |].
  apply logical_operator; repeat constructor.
Defined.

(** A clause [{ field: { op: arg } }] for an operator that is not
    logical. *)
Lemma compile_condition (field op : string) (arg : value) :
  dollar field = false -> proto_key op = false -> TRAVERSABLE op = false ->
  compile (VObj [(field, VObj [(op, arg)])])
  = Ret (mkFilter (VObj [(field, VObj [(op, arg)])])
                  [Qry [Tst (comparators op) (Raw arg) false] (Some field)]).
Proof.
  intros Hd Hp Ht. unfold compile.
  rewrite (parseQuery_field _ field (VObj [(op, arg)])
             [Tst (comparators op) (Raw arg) false] Hd eq_refl); [reflexivity|].
  cbn [depth map list_max fold_right snd Nat.max].
  apply parseFilter_plain. repeat constructor; assumption.
Qed.

(** X15.  Two conditions on one field may be listed in one condition
    group or given as two expressions under [$and]: for operators that
    are not logical, [{ k: { op1: X, op2: Y } }] and
    [{ $and: [{ k: { op1: X } }, { k: { op2: Y } }] }] both compile and
    answer alike on every record. *)
Theorem and_of_fields (k op1 op2 : string) (X Y : value) :
  dollar k = false ->
  proto_key op1 = false -> TRAVERSABLE op1 = false ->
  proto_key op2 = false -> TRAVERSABLE op2 = false ->
  exists f1 f2,
    compile (VObj [(k, VObj [(op1, X); (op2, Y)])]) = Ret f1
    /\ compile (VObj [("$and", VArr [VObj [(k, VObj [(op1, X)])];
                                     VObj [(k, VObj [(op2, Y)])]])]) = Ret f2
    /\ forall (get : value -> string -> value) (r : value),
         test get f1 r = test get f2 r.
Proof.
  intros Hd Hp1 Ht1 Hp2 Ht2.
  destruct (logical_core "$and" fn_and
              [VObj [(k, VObj [(op1, X)])]; VObj [(k, VObj [(op2, Y)])]]
              [mkFilter (VObj [(k, VObj [(op1, X)])])
                        [Qry [Tst (comparators op1) (Raw X) false] (Some k)];
               mkFilter (VObj [(k, VObj [(op2, Y)])])
                        [Qry [Tst (comparators op2) (Raw Y) false] (Some k)]]
              eq_refl eq_refl eq_refl) as (F & HF & _ & Htest).
  { repeat constructor; apply compile_condition; assumption. }
  unfold compile at 1.
  rewrite (parseQuery_field _ k (VObj [(op1, X); (op2, Y)])
             [Tst (comparators op1) (Raw X) false; Tst (comparators op2) (Raw Y) false]
             Hd eq_refl)
    by (apply parseFilter_plain; repeat constructor; assumption).
  cbn [bind]. do 2 eexists. split; [reflexivity|]. split; [exact HF|].
  intros get r. rewrite Htest. unfold test. cbn [stack mapM].
  unfold testFilter. cbn [foldM]. rewrite !test_clause_eq.
  generalize (element get r (Some k)) as el. intro el.
  change [Tst (comparators op1) (Raw X) false; Tst (comparators op2) (Raw Y) false]
    with ([Tst (comparators op1) (Raw X) false] ++ [Tst (comparators op2) (Raw Y) false]).
  rewrite (_testFilter_and get el (_ ++ _)), and_fold_app, <- !_testFilter_and.
  destruct (_testFilter get el [Tst (comparators op1) (Raw X) false]) as [[] | |];
    cbn [bind]; try reflexivity;
    destruct (_testFilter get el [Tst (comparators op2) (Raw Y) false]) as [[] | |];
    reflexivity.
Qed.

Lemma and_of_fields_witness :
  (dollar "hello" = false
   /\ proto_key "$gt" = false /\ TRAVERSABLE "$gt" = false
   /\ proto_key "$lt" = false /\ TRAVERSABLE "$lt" = false)
  /\ exists f1 f2,
      compile (VObj [("hello", VObj [("$gt", num_ 42); ("$lt", num_ 84)])]) = Ret f1
      /\ compile (VObj [("$and", VArr [VObj [("hello", VObj [("$gt", num_ 42)])];
                                       VObj [("hello", VObj [("$lt", num_ 84)])]])])
         = Ret f2
      /\ forall (get : value -> string -> value) (r : value),
           test get f1 r = test get f2 r.
Proof.
  split; [repeat split | apply and_of_fields; reflexivity].
Defined.

(** ** Queries and data of other shapes *)

(** X16.  A query with nothing to enumerate ([undefined], [null], a
    number, a boolean, an empty object, array or string) compiles to the
    empty stack, and the filter accepts every record. *)
Theorem nothing_to_enumerate (q : value) :
  JS.for_in q = [] ->
  compile q = Ret (mkFilter q [])
  /\ forall (get : value -> string -> value) (r : value),
       test get (mkFilter q []) r = Ret true.
Proof.
  intro H. unfold compile. cbn [parseQuery]. rewrite H. split; reflexivity.
Qed.

Lemma nothing_to_enumerate_witness :
  JS.for_in VUndef = []
  /\ (compile VUndef = Ret (mkFilter VUndef [])
      /\ forall (get : value -> string -> value) (r : value),
           test get (mkFilter VUndef []) r = Ret true).
Proof.
  split; [reflexivity | apply nothing_to_enumerate; reflexivity].
Defined.

(** X17.  The three array methods read [data.length]: on [null] and
    [undefined] they throw, on a number or a boolean they find no record
    and return the empty array, whatever the filter. *)
Theorem methods_on_non_arrays (get : value -> string -> value) (f : Filter) :
  (pass get f VNull = Throw TypeError /\ subset get f VNull = Throw TypeError
   /\ index get f VNull = Throw TypeError)
  /\ (pass get f VUndef = Throw TypeError /\ subset get f VUndef = Throw TypeError
      /\ index get f VUndef = Throw TypeError)
  /\ (forall n, pass get f (VNum n) = Ret [] /\ subset get f (VNum n) = Ret []
                /\ index get f (VNum n) = Ret [])
  /\ (forall b, pass get f (VBool b) = Ret [] /\ subset get f (VBool b) = Ret []
                /\ index get f (VBool b) = Ret []).
Proof. repeat split. Qed.

Lemma dec_plain (i : nat) :
  proto_key (JS.dec i) = false /\ TRAVERSABLE (JS.dec i) = false
  /\ comparators (JS.dec i) = None.
Proof.
  unfold JS.dec. destruct (Nat.to_uint i); repeat split.
Qed.

Lemma parseFilter_array (n : nat) (xs : list value) :
  parseFilter (S n) (VArr xs) = Ret (map (fun x => Tst None (Raw x) false) xs).
Proof.
  cbn [parseFilter JS.for_in].
  assert (G : forall i stack nq,
             foldM (parse_test (parseQuery n)) (JS.indexed i xs) (stack, nq)
             = Ret (stack ++ map (fun x => Tst None (Raw x) false) xs, nq)).
  { induction xs as [| x xs IH]; intros i stack nq; cbn [JS.indexed foldM map].
    - rewrite app_nil_r. reflexivity.
    - unfold parse_test at 1. destruct (dec_plain i) as (Hp & Ht & Hc).
      rewrite (resolve_plain _ Hp), (traversable_plain _ Hp), Ht, Hc. cbn [bind].
      rewrite IH, <- app_assoc. reflexivity. }
  rewrite G. reflexivity.
Qed.

(** X18.  An array given as the value of a field is not a list of
    alternatives: it compiles, its indices standing for operators that do
    not exist, and [test] then throws on every record; only the empty
    array gives a filter that answers, accepting every record. *)
Theorem array_as_condition (field : string) :
  dollar field = false ->
  (forall (x : value) (xs : list value),
      exists f,
        compile (VObj [(field, VArr (x :: xs))]) = Ret f
        /\ stack f = [Qry (map (fun y => Tst None (Raw y) false) (x :: xs)) (Some field)]
        /\ forall (get : value -> string -> value) (r : value),
             test get f r = Throw TypeError)
  /\ exists f,
      compile (VObj [(field, VArr [])]) = Ret f
      /\ forall (get : value -> string -> value) (r : value),
           test get f r = Ret true.
Proof.
  intro Hd. split.
  - intros x xs. unfold compile.
    rewrite (parseQuery_field _ field (VArr (x :: xs)) _ Hd eq_refl
               (parseFilter_array _ (x :: xs))).
    cbn [bind]. eexists. split; [reflexivity|]. split; [reflexivity|].
    intros get r. reflexivity.
  - unfold compile.
    rewrite (parseQuery_field _ field (VArr []) _ Hd eq_refl (parseFilter_array _ [])).
    cbn [bind]. eexists. split; [reflexivity|]. intros get r. reflexivity.
Qed.

Lemma array_as_condition_witness :
  dollar "tags" = false
  /\ ((forall (x : value) (xs : list value),
          exists f,
            compile (VObj [("tags", VArr (x :: xs))]) = Ret f
            /\ stack f = [Qry (map (fun y => Tst None (Raw y) false) (x :: xs))
                              (Some "tags")]
            /\ forall (get : value -> string -> value) (r : value),
                 test get f r = Throw TypeError)
      /\ exists f,
          compile (VObj [("tags", VArr [])]) = Ret f
          /\ forall (get : value -> string -> value) (r : value),
               test get f r = Ret true).
Proof.
  split; [reflexivity | apply array_as_condition; reflexivity].
Defined.

(** X19.  A key that is the empty string is no path: the condition is
    applied to the record itself, and the path lookup is not asked. *)
Theorem empty_path (v : value) :
  literal v = true ->
  exists f,
    compile (VObj [("", v)]) = Ret f
    /\ stack f = [Qry [Tst (Some fn_eq) (Raw v) false] (Some "")]
    /\ forall (get : value -> string -> value) (r : value),
         test get f r = c_eq r v.
Proof.
  intro Hl. unfold compile.
  rewrite (parseQuery_literal _ "" v eq_refl Hl). cbn [bind]. eexists.
  split; [reflexivity|]. split; [reflexivity|].
  intros get r. unfold test, testFilter. cbn [stack foldM].
  rewrite test_clause_eq. unfold _testFilter.
  cbn [element JS.truthy String.eqb negb foldM argument apply_fn arity Nat.eqb
       Nat.ltb Nat.leb call nth bind].
  destruct (c_eq r v) as [[] | |]; reflexivity.
Qed.

Lemma empty_path_witness :
  literal (num_ 5) = true
  /\ exists f,
      compile (VObj [("", num_ 5)]) = Ret f
      /\ stack f = [Qry [Tst (Some fn_eq) (Raw (num_ 5)) false] (Some "")]
      /\ forall (get : value -> string -> value) (r : value),
           test get f r = c_eq r (num_ 5).
Proof.
  split; [reflexivity | apply empty_path; reflexivity].
Defined.

(** ** Invariants of the compiled filter *)

Lemma parse_clause_loop (pf : value -> outcome (list tst)) (q : value)
    (kvs : list (string * value)) (acc s : list qry) :
  foldM (parse_clause pf q) kvs acc = Ret s ->
  exists cs, s = acc ++ cs
             /\ Forall2 (fun kv c => qry_path c = path_of_key (fst kv)) kvs cs.
Proof.
  revert acc. induction kvs as [| [cmd params] kvs IH]; intro acc; cbn [foldM].
  - intro H. injection H as <-. exists []. rewrite app_nil_r. split; constructor.
  - unfold parse_clause at 1.
    destruct (if dollar cmd then _ else _) as [c | |] eqn:Hc; cbn [bind]; try discriminate.
    intro H. apply IH in H. destruct H as (cs & -> & Hcs).
    exists (c :: cs). rewrite <- app_assoc. split; [reflexivity|].
    constructor; [|exact Hcs]. cbn [fst]. unfold path_of_key.
    destruct (dollar cmd).
    + destruct (pf q); cbn [bind] in Hc; try discriminate.
      injection Hc as <-. reflexivity.
    + destruct (literal params).
      * destruct (pf _); cbn [bind] in Hc; try discriminate.
        injection Hc as <-. reflexivity.
      * destruct (pf params); cbn [bind] in Hc; try discriminate.
        injection Hc as <-. reflexivity.
Qed.

(** X20.  A compiled filter has one clause for every key of the query,
    in the order of the keys; the clause of an operator key has no path,
    the clause of any other key has the key as its path. *)
Theorem clause_per_key (q : value) (f : Filter) :
  compile q = Ret f ->
  List.length (stack f) = List.length (JS.for_in q)
  /\ Forall2 (fun kv c => qry_path c = path_of_key (fst kv)) (JS.for_in q) (stack f).
Proof.
  unfold compile. cbn [parseQuery].
  destruct (foldM _ (JS.for_in q) []) as [s | |] eqn:H; cbn [bind]; try discriminate.
  intro E. injection E as <-. cbn [stack].
  apply parse_clause_loop in H. destruct H as (cs & -> & H). cbn [app].
  split; [symmetry; eapply Forall2_length; exact H | exact H].
Qed.

Lemma clause_per_key_witness :
  compile or_query = Ret or_filter
  /\ (List.length (stack or_filter) = List.length (JS.for_in or_query)
      /\ Forall2 (fun kv c => qry_path c = path_of_key (fst kv))
                 (JS.for_in or_query) (stack or_filter)).
Proof.
  split; [reflexivity | apply clause_per_key; reflexivity].
Defined.

(** Over elements none of which is a literal, the loop compiles each
    one and pushes its stack. *)
Lemma parse_element_stacks (pq : value -> outcome (list qry)) (ps : list value)
    (tr tr' : bool) (nq nq' : option (list qry)) (st st' : list (option (list qry))) :
  existsb literal ps = false ->
  foldM (parse_element pq) ps (tr, nq, st) = Ret (tr', nq', st') ->
  exists qs, mapM pq ps = Ret qs /\ st' = st ++ map Some qs.
Proof.
  revert tr nq st. induction ps as [| p ps IH]; intros tr nq st Hl; cbn [foldM mapM].
  - intro H. injection H as _ _ <-. exists []. rewrite app_nil_r. split; reflexivity.
  - cbn [existsb] in Hl. apply orb_false_iff in Hl. destruct Hl as [Hp Hl].
    unfold parse_element at 1. rewrite Hp.
    destruct (pq p) as [q | |]; cbn [bind]; try discriminate.
    intro H. destruct (IH _ _ _ Hl H) as (qs & -> & ->).
    exists (q :: qs). cbn [bind map]. rewrite <- app_assoc. split; reflexivity.
Qed.

Lemma parse_test_nodes (pq : value -> outcome (list qry))
    (kvs : list (string * value)) (stack stack' : list tst)
    (nq nq' : option (list qry)) :
  foldM (parse_test pq) kvs (stack, nq) = Ret (stack', nq') ->
  exists ts, stack' = stack ++ ts /\ Forall2 (node_of pq) kvs ts.
Proof.
  revert stack nq. induction kvs as [| [op params] kvs IH]; intros stack nq; cbn [foldM].
  - intro H. injection H as <- _. exists []. rewrite app_nil_r. split; constructor.
  - unfold parse_test at 1. destruct (traversable op) eqn:Ht.
    + destruct (JS.elements params) as [ps | |] eqn:Hps; cbn [bind]; try discriminate.
      destruct (foldM (parse_element pq) ps (true, nq, []))
        as [[[tr nq1] st] | |] eqn:Hl; cbn [bind]; try discriminate.
      intro H. apply IH in H. destruct H as (ts & -> & Hts).
      eexists (_ :: ts). rewrite <- app_assoc. split; [reflexivity|].
      constructor; [|exact Hts].
      pose proof (parse_element_loop _ _ _ _ _ _ _ _ Hl) as Htr. cbn [andb] in Htr.
      unfold node_of. cbn [fst snd tst_fn tst_params tst_traverse].
      split; [reflexivity|]. split.
      * intros ->. split; [reflexivity|]. right. exists ps. split; [exact Hps|].
        destruct (existsb literal ps); [reflexivity | discriminate].
      * intros ->. split; [exact Ht|].
        assert (He : existsb literal ps = false)
          by (destruct (existsb literal ps); [discriminate | reflexivity]).
        destruct (parse_element_stacks _ _ _ _ _ _ _ _ He Hl) as (qs & Hqs & ->).
        exists ps, qs. cbn [app]. repeat split; assumption.
    + cbn [bind]. intro H. apply IH in H. destruct H as (ts & -> & Hts).
      eexists (_ :: ts). rewrite <- app_assoc. split; [reflexivity|].
      constructor; [|exact Hts].
      unfold node_of. cbn [fst snd tst_fn tst_params tst_traverse].
      split; [reflexivity|]. split; [|discriminate].
      intros _. split; [reflexivity | left; exact Ht].
Qed.

(** X21.  [parseFilter] returns one node for every key of the condition
    group, in the order of the keys, and the key and its value fix the
    node.  Its comparator is what the comparator table answers under the
    key, an inherited property included, or undefined.  [traverse] is on
    exactly when [TRAVERSABLE] answers for the key and no element of the
    value is a literal; [params] then holds the compiled stack of every
    element, in order, all of them defined: the value left in [nq] by an
    earlier element, which the loop pushes for a literal, never reaches
    evaluation.  With [traverse] off, [params] is the query's own
    value. *)
Theorem nodes_well_formed (n : nat) (q : value) (ts : list tst) :
  parseFilter (S n) q = Ret ts ->
  Forall2 (node_of (parseQuery n)) (JS.for_in q) ts.
Proof.
  cbn [parseFilter].
  destruct (foldM (parse_test (parseQuery n)) (JS.for_in q) ([], None))
    as [[s nq] | |] eqn:H; cbn [bind]; try discriminate.
  intro E. injection E as <-.
  apply parse_test_nodes in H. destruct H as (ts & -> & H). exact H.
Qed.

Lemma nodes_well_formed_witness :
  parseFilter 3 (VObj [("$and", VArr [VObj [("$gt", num_ 5)]; num_ 1]);
                       ("$or", VArr [VObj [("$gt", num_ 5)]]);
                       ("toString", VArr [VObj [("$gt", num_ 5)]])])
  = Ret [Tst (Some fn_and) (Raw (VArr [VObj [("$gt", num_ 5)]; num_ 1])) false;
         Tst (Some fn_or)
             (Nested [Some [Qry [Tst (Some fn_gt) (Raw (num_ 5)) false] None]])
             true;
         Tst (Some (fn_inherited "toString"))
             (Nested [Some [Qry [Tst (Some fn_gt) (Raw (num_ 5)) false] None]])
             true]
  /\ Forall2 (node_of (parseQuery 2))
       (JS.for_in (VObj [("$and", VArr [VObj [("$gt", num_ 5)]; num_ 1]);
                         ("$or", VArr [VObj [("$gt", num_ 5)]]);
                         ("toString", VArr [VObj [("$gt", num_ 5)]])]))
       [Tst (Some fn_and) (Raw (VArr [VObj [("$gt", num_ 5)]; num_ 1])) false;
        Tst (Some fn_or)
            (Nested [Some [Qry [Tst (Some fn_gt) (Raw (num_ 5)) false] None]])
            true;
        Tst (Some (fn_inherited "toString"))
            (Nested [Some [Qry [Tst (Some fn_gt) (Raw (num_ 5)) false] None]])
            true].
Proof.
  split; [reflexivity |].
  apply (nodes_well_formed 2
           (VObj [("$and", VArr [VObj [("$gt", num_ 5)]; num_ 1]);
                  ("$or", VArr [VObj [("$gt", num_ 5)]]);
                  ("toString", VArr [VObj [("$gt", num_ 5)]])])).
  reflexivity.
Defined.
